(** * size-label-action: the labelling decisions of [src/index.js]

    A shallow embedding of the pure parts of the action: the ignore
    predicate built by [parseIgnored], the per-file character count of
    [main], the threshold lookup [getSizeLabel] and the label
    reconciliation [getLabelChanges].

    Conventions.
    - Label names, paths, rule lines and glob patterns are [string]s.
      Paths and rule lines are taken to be ASCII text, one character per
      code unit, so that [substr] and [trim] count and classify
      characters as the code does; of a label name only equality and the
      ASCII prefix [size/] are tested, which holds for any text.
    - The lines of a hunk, which the code scans with a character-class
      regular expression, are sequences of UTF-16 code units ([list N]).
    - [null]/[undefined] is [None].
    - A thrown [TypeError] is the [TypeError] constructor of [result].
    - The threshold object is a finite map from its numeric keys to the
      tier names; counts and keys are natural numbers ([N]), below the
      range where JavaScript numbers stop being exact. *)

From Stdlib Require Import String Ascii List NArith Lia Bool.
From stdpp Require Import gmap strings list sorting.

Open Scope string_scope.
Open Scope list_scope.

(** ** JavaScript primitives used by the source *)

Module Js.

(** Outcome of a call that may throw. *)
Inductive result (A : Type) : Type :=
| Ok (a : A)
| TypeError.
Arguments Ok {A} a.
Arguments TypeError {A}.

(** [s.startsWith(p)]. *)
Definition startsWith (s p : string) : bool := String.prefix p s.

(** [s === v] where [s] is a string and [v] is a string or [null]. *)
Definition strictEq (s : string) (v : option string) : bool :=
  match v with
  | Some t => String.eqb s t
  | None => false
  end.

(** [a.push(x)] and [a.pop()], as the new contents of the array;
    [pop] on an empty array leaves it empty. *)
Definition push {A} (a : list A) (x : A) : list A := a ++ [x].
Definition pop {A} (a : list A) : list A := removelast a.

End Js.
Export Js.

(** ** Label reconciliation: [getLabelChanges] *)

(** A label object of the event payload; the code reads only [name]. *)
Record label : Type := Label { name : string }.

(** An element of the [existingLabels] array: a label object, or a
    primitive string. *)
Inductive element : Type :=
| ELabel (l : label)
| EString (s : string).

(** [existingLabels.includes(s)] for a string [s]: SameValueZero of each
    element with the primitive string [s].  An object is never the same
    value as a primitive string. *)
Definition includes (existingLabels : list element) (s : string) : bool :=
  existsb (fun e => match e with
                    | EString t => String.eqb t s
                    | ELabel _ => false
                    end) existingLabels.

(** The [{ add, remove }] object the function returns.  [add] starts as
    [[newLabel]], so it holds [null] when [newLabel] is [null]. *)
Record delta : Type := Delta {
  add : list (option string);
  remove : list string
}.

(** The [for ... of existingLabels] loop (lines 203-212), threading the
    two arrays.  Destructuring [{ name }] from a primitive string gives
    [undefined], and [undefined.startsWith] throws. *)
Fixpoint sizeLoop (newLabel : option string) (existingLabels : list element)
    (add : list (option string)) (remove : list string)
  : result (list (option string) * list string) :=
  match existingLabels with
  | [] => Ok (add, remove)
  | EString _ :: _ => TypeError
  | ELabel existingLabel :: rest =>
      let name := name existingLabel in
      if startsWith name "size/" then
        if strictEq name newLabel
        then sizeLoop newLabel rest (pop add) remove
        else sizeLoop newLabel rest add (push remove name)
      else sizeLoop newLabel rest add remove
  end.

Definition getLabelChanges (newLabel : option string)
    (existingLabels : list element) (hasUpdatedOldFiles : bool)
  : result delta :=
  match sizeLoop newLabel existingLabels [newLabel] [] with
  | TypeError => TypeError
  | Ok (add, remove) =>
      let '(add, remove) :=
        if strictEq "size/XXS" newLabel then
          if includes existingLabels "translation"
          then (add, push remove "translation")
          else (add, remove)
        else
          if negb (includes existingLabels "translation")
          then (push add (Some "translation"), remove)
          else (add, remove) in
      let '(add, remove) :=
        if hasUpdatedOldFiles then
          if negb (includes existingLabels "update")
          then (push add (Some "update"), remove)
          else (add, remove)
        else
          if includes existingLabels "update"
          then (add, push remove "update")
          else (add, remove) in
      Ok {| add := add; remove := remove |}
  end.

(** The payload's [labels] array: label objects only. *)
Definition labelObjects (labels : list label) : list element :=
  map ELabel labels.

(** ** Size classification: [getSizeLabel] *)

(** The threshold object.  Its property names are the decimal spellings
    of non-negative integers; the comparator [a - b] and the test
    [changedLines >= lines] read them back as those numbers, so the map
    is keyed by the numbers themselves. *)
Definition defaultSizes : gmap N string :=
  list_to_map
    [(1%N, "XXS"); (10%N, "XS"); (100%N, "S"); (1000%N, "M");
     (5000%N, "L"); (10000%N, "XL"); (20000%N, "XXL")].

(** [Object.keys(sizes)]. *)
Definition keys (sizes : gmap N string) : list N :=
  map fst (map_to_list sizes).

(** [Object.keys(sizes).sort((a, b) => a - b)]: the keys in ascending
    numeric order. *)
Definition sortedKeys (sizes : gmap N string) : list N :=
  merge_sort N.le (keys sizes).

(** The template literal [`size/${sizes[lines]}`]; a missing property
    would print as [undefined]. *)
Definition sizeName (sizes : gmap N string) (lines : N) : string :=
  "size/" +:+ default "undefined" (sizes !! lines).

(** One iteration of the loop body (lines 193-195). *)
Definition sizeStep (changedLines : N) (sizes : gmap N string)
    (label : option string) (lines : N) : option string :=
  if (lines <=? changedLines)%N then Some (sizeName sizes lines) else label.

(** [sizes] is [None] when the caller passes [undefined]; the parameter
    then takes its default value. *)
Definition getSizeLabel (changedLines : N) (sizes : option (gmap N string))
  : option string :=
  let sizes := default defaultSizes sizes in
  foldl (sizeStep changedLines sizes) None (sortedKeys sizes).

(** ** The ignore predicate: [parseIgnored] *)

(** [s.substr(n)]: what is left after the first [n] characters. *)
Fixpoint substr (s : string) (n : nat) : string :=
  match n, s with
  | O, _ => s
  | S n', String _ rest => substr rest n'
  | S _, EmptyString => EmptyString
  end.

(** [str.split(/\r|\n/)]; the empty string splits into one empty piece. *)
Fixpoint splitLines (str : string) : list string :=
  match str with
  | EmptyString => [EmptyString]
  | String c rest =>
      if (Ascii.eqb c "013" || Ascii.eqb c "010")%char%bool
      then EmptyString :: splitLines rest
      else match splitLines rest with
           | piece :: pieces => String c piece :: pieces
           | [] => [String c EmptyString]
           end
  end.

(** The ASCII white space that [trim] strips: tab, line feed, vertical
    tab, form feed, carriage return and space. *)
Definition isSpace (c : ascii) : bool :=
  let n := nat_of_ascii c in
  ((9 <=? n)%nat && (n <=? 13)%nat) || (n =? 32)%nat.

Fixpoint trimStart (s : string) : string :=
  match s with
  | String c rest => if isSpace c then trimStart rest else s
  | EmptyString => EmptyString
  end.

Fixpoint trimEnd (s : string) : string :=
  match s with
  | String c rest =>
      match trimEnd rest with
      | EmptyString => if isSpace c then EmptyString else String c EmptyString
      | rest' => String c rest'
      end
  | EmptyString => EmptyString
  end.

Definition trim (s : string) : string := trimEnd (trimStart s).

(** [s.length > 1 && s[0] === "!"]. *)
Definition isNegation (s : string) : bool :=
  (1 <? String.length s)%nat &&
  match s with
  | String c _ => Ascii.eqb c "!"
  | EmptyString => false
  end.

Section IgnoreRules.

(** The [globrex] package is not part of the sources.  [regex] is the
    type of the regular expressions it builds, [globrex pattern] is
    [globrex(pattern, globrexOptions).regex], or [None] when the
    construction throws, and [matches pathname re] says that
    [pathname.match(re)] is not [null]. *)
Variable regex : Type.
Variable globrex : string -> option regex.
Variable matches : string -> regex -> bool.

(** An element of the [ignored] array: [{ not: ... }] or a plain
    [globrex] result. *)
Inductive entry : Type :=
| Negate (re : regex)
| Exclude (re : regex).

(** The function of the last [map] of [parseIgnored] (lines 153-157). *)
Definition compileLine (s : string) : option entry :=
  if isNegation s
  then Negate <$> globrex (substr s 1)
  else Exclude <$> globrex s.

(** The rule lines kept by [split], [trim] and [filter] (lines 150-152). *)
Definition ruleLines (str : string) : list string :=
  List.filter (fun s => (0 <? String.length s)%nat && negb (startsWith s "#"))
    (map trim (splitLines str)).

(** The [ignored] array; [None] when a [globrex] call throws. *)
Definition compileRules (str : option string) : option (list entry) :=
  mapM compileLine (ruleLines (default "" str)).

(** The [for ... of ignored] loop of [isIgnored] (lines 163-173); the
    [return false] inside it ends the loop. *)
Fixpoint ignoreLoop (pathname : string) (ignored : list entry) (ignore : bool)
  : bool :=
  match ignored with
  | [] => ignore
  | Negate re :: rest =>
      if matches pathname re then false
      else ignoreLoop pathname rest ignore
  | Exclude re :: rest =>
      if negb ignore && matches pathname re
      then ignoreLoop pathname rest true
      else ignoreLoop pathname rest ignore
  end.

(** The closure [isIgnored], with the array it closes over. *)
Definition isIgnored (ignored : list entry) (path : option string) : bool :=
  match path with
  | None => true
  | Some path =>
      if String.eqb path "/dev/null" then true
      else ignoreLoop (substr path 2) ignored false
  end.

Definition parseIgnored (str : option string)
  : option (option string -> bool) :=
  isIgnored <$> compileRules str.

End IgnoreRules.

Arguments Negate {regex} re.
Arguments Exclude {regex} re.
Arguments compileLine {regex} globrex s.
Arguments compileRules {regex} globrex str.
Arguments ignoreLoop {regex} matches pathname ignored ignore.
Arguments isIgnored {regex} matches ignored path.
Arguments parseIgnored {regex} globrex matches str.

(** ** The character count of [main] (lines 76-91) *)

Record hunk : Type := Hunk { lines : list (list N) }.

Record file : Type := File {
  oldFileName : option string;
  newFileName : option string;
  hunks : list hunk
}.

(** What the loop prints. *)
Inductive output : Type :=
| AddedLine (line : list N)
| AddedInFile (newFileName : option string) (added : N)
| Total (ukrainianCharactersNumber : N).

(** A code unit matched by [UKRAINIAN_REGEX], the class from U+0400 to
    U+04FF. *)
Definition isUkrainian (c : N) : bool := (1024 <=? c)%N && (c <=? 1279)%N.

(** [(line.match(UKRAINIAN_REGEX) || []).length]. *)
Definition matchCount (line : list N) : N :=
  N.of_nat (length (List.filter isUkrainian line)).

(** [line[0] === "+"]. *)
Definition isAdded (line : list N) : bool :=
  match line with
  | c :: _ => (c =? 43)%N
  | [] => false
  end.

(** The state the loops thread: the counter and the printed lines. *)
Definition counter : Type := (N * list output)%type.

Definition lineStep (st : counter) (line : list N) : counter :=
  if isAdded line
  then (fst st + matchCount line, snd st ++ [AddedLine line])%N
  else st.

Definition hunkStep (st : counter) (h : hunk) : counter :=
  fold_left lineStep (lines h) st.

Definition fileStep (isIgnored : option string -> bool) (st : counter)
    (f : file) : counter :=
  if negb (isIgnored (oldFileName f)) || negb (isIgnored (newFileName f)) then
    let oldValue := fst st in
    let st' := fold_left hunkStep (hunks f) st in
    (fst st', snd st' ++ [AddedInFile (newFileName f) (fst st' - oldValue)])%N
  else st.

Definition countUkrainian (isIgnored : option string -> bool)
    (diffData : list file) : counter :=
  let st := fold_left (fileStep isIgnored) diffData (0%N, []) in
  (fst st, snd st ++ [Total (fst st)]).

(** * Notions the properties are stated with *)

(** An existing label that is the desired size label. *)
Definition isDesired (newLabel : option string) (l : label) : bool :=
  startsWith (name l) "size/" && strictEq (name l) newLabel.

(** An existing size label other than the desired one. *)
Definition isStale (newLabel : option string) (l : label) : bool :=
  startsWith (name l) "size/" && negb (strictEq (name l) newLabel).

(** The size part, the translation part and the update part of [add]. *)
Definition sizeAdd (newLabel : option string) (labels : list label)
  : list (option string) :=
  if existsb (isDesired newLabel) labels then [] else [newLabel].

Definition translationAdd (newLabel : option string) : list (option string) :=
  if strictEq "size/XXS" newLabel then [] else [Some "translation"].

Definition updateAdd (hasUpdatedOldFiles : bool) : list (option string) :=
  if hasUpdatedOldFiles then [Some "update"] else [].

(** [k] is the greatest key of [sizes] that is at most [m]. *)
Definition greatestKeyLe (sizes : gmap N string) (m k : N) : Prop :=
  is_Some (sizes !! k) /\ (k <= m)%N /\
  forall k', is_Some (sizes !! k') -> (k' <= m)%N -> (k' <= k)%N.

(** The tiers of a table, in ascending order of their keys. *)
Definition tiers (sizes : gmap N string) : list string :=
  map (sizeName sizes) (sortedKeys sizes).

Fixpoint indexOf (l : string) (ts : list string) : nat :=
  match ts with
  | [] => O
  | t :: rest => if String.eqb l t then O else S (indexOf l rest)
  end.

(** The tier index of a label: the absent label is below every tier. *)
Definition tierIndex (sizes : gmap N string) (label : option string) : nat :=
  match label with
  | None => O
  | Some l => S (indexOf l (tiers sizes))
  end.

(** What [getSizeLabel] can return: [null], or a name that starts with
    the [size/] prefix. *)
Definition isSizeLabel (newLabel : option string) : Prop :=
  match newLabel with
  | None => True
  | Some s => startsWith s "size/" = true
  end.

(** Modelled from the spec: the platform's label store, which is not in
    the sources.  [main] first attaches the names of [add] (a name that is
    already attached stays once, [null] names no label), then detaches
    the names of [remove] one by one. *)
Definition attach (labels : list label) (n : option string) : list label :=
  match n with
  | Some n =>
      if existsb (fun l => String.eqb (name l) n) labels then labels
      else labels ++ [Label n]
  | None => labels
  end.

Definition detach (labels : list label) (n : string) : list label :=
  List.filter (fun l => negb (String.eqb (name l) n)) labels.

Definition applyDelta (d : delta) (labels : list label) : list label :=
  fold_left detach (remove d) (fold_left attach (add d) labels).

(** A negate rule, respectively an exclude rule, that matches. *)
Definition negateMatches {regex : Type} (matches : string -> regex -> bool)
    (pathname : string) (e : entry regex) : bool :=
  match e with
  | Negate re => matches pathname re
  | Exclude _ => false
  end.

Definition excludeMatches {regex : Type} (matches : string -> regex -> bool)
    (pathname : string) (e : entry regex) : bool :=
  match e with
  | Negate _ => false
  | Exclude re => matches pathname re
  end.

(** The rule lines of scenario D: an exclude rule, then a negate rule. *)
Definition scenarioRules : string :=
  "docs/**" +:+ String "010" "!docs/keep.md".

(** Modelled from the spec: a matcher for the part of the glob syntax the
    scenario uses, standing for the [globrex] package: a literal
    character matches itself, [*] matches any run of characters other
    than [/], and [**] matches any run of characters. *)
Fixpoint suffixes (s : string) : list string :=
  s :: match s with
       | String _ rest => suffixes rest
       | EmptyString => []
       end.

Fixpoint segmentSuffixes (s : string) : list string :=
  s :: match s with
       | String c rest =>
           if Ascii.eqb c "/" then [] else segmentSuffixes rest
       | EmptyString => []
       end.

Fixpoint globModel (pathname pattern : string) : bool :=
  match pattern with
  | EmptyString =>
      match pathname with EmptyString => true | _ => false end
  | String "*" (String "*" pattern') =>
      existsb (fun s => globModel s pattern') (suffixes pathname)
  | String "*" pattern' =>
      existsb (fun s => globModel s pattern') (segmentSuffixes pathname)
  | String c pattern' =>
      match pathname with
      | String c' rest => Ascii.eqb c c' && globModel rest pattern'
      | EmptyString => false
      end
  end.

(** The matches in a list of lines. *)
Definition total (ls : list (list N)) : N :=
  fold_right N.add 0%N (map matchCount ls).

(** The per-file count and the lines printed for a file that counts. *)
Definition addedLines (f : file) : list (list N) :=
  List.filter isAdded (concat (map lines (hunks f))).

Definition addedCount (f : file) : N := total (addedLines f).

Definition fileOutput (f : file) : list output :=
  map AddedLine (addedLines f) ++ [AddedInFile (newFileName f) (addedCount f)].

(** The test of line 78. *)
Definition counts (isIgnored : option string -> bool) (f : file) : bool :=
  negb (isIgnored (oldFileName f) && isIgnored (newFileName f)).

(** * Properties of the model *)

(** ** What the size loop computes on an array of label objects *)

Lemma strictEq_true s v : strictEq s v = true <-> v = Some s.
Proof.
  destruct v as [t|]; simpl; [|split; discriminate].
  rewrite String.eqb_eq. split; [intros ->; reflexivity | intros [= ->]; reflexivity].
Qed.

Lemma strictEq_false s v : strictEq s v = false <-> v <> Some s.
Proof.
  rewrite <- strictEq_true. destruct (strictEq s v); split; congruence.
Qed.

Lemma pop_short {A} (a : list A) : (length a <= 1)%nat -> pop a = [].
Proof.
  destruct a as [|x [|y a]]; simpl; intros; try reflexivity; lia.
Qed.

Lemma includes_labelObjects labels s : includes (labelObjects labels) s = false.
Proof.
  induction labels as [|l labels IH]; simpl; [reflexivity | exact IH].
Qed.

Lemma sizeLoop_labelObjects newLabel labels :
  forall a r, (length a <= 1)%nat ->
    sizeLoop newLabel (labelObjects labels) a r
    = Ok (if existsb (isDesired newLabel) labels then [] else a,
          r ++ map name (List.filter (isStale newLabel) labels)).
Proof.
  induction labels as [|l labels IH]; intros a r Ha; simpl.
  - rewrite app_nil_r. reflexivity.
  - unfold isDesired, isStale.
    destruct (startsWith (name l) "size/"); simpl.
    + destruct (strictEq (name l) newLabel); simpl.
      * fold (labelObjects labels).
        rewrite IH by (rewrite pop_short; simpl; lia).
        rewrite (pop_short a Ha). destruct (existsb _ labels); reflexivity.
      * fold (labelObjects labels). rewrite IH by exact Ha.
        unfold push. rewrite <- app_assoc. reflexivity.
    + fold (labelObjects labels). rewrite IH by exact Ha. reflexivity.
Qed.

(** Closed form of [getLabelChanges] on the payload's label objects: the
    call returns, both [includes] tests are false, and nothing but stale
    size labels is removed. *)
Lemma getLabelChanges_labelObjects newLabel labels hasUpdatedOldFiles :
  getLabelChanges newLabel (labelObjects labels) hasUpdatedOldFiles
  = Ok {| add := sizeAdd newLabel labels ++ translationAdd newLabel
                 ++ updateAdd hasUpdatedOldFiles;
          remove := map name (List.filter (isStale newLabel) labels) |}.
Proof.
  unfold getLabelChanges.
  rewrite sizeLoop_labelObjects by (simpl; lia).
  rewrite !includes_labelObjects. simpl.
  unfold sizeAdd, translationAdd, updateAdd, push.
  destruct (existsb _ labels), (strictEq "size/XXS" newLabel),
    hasUpdatedOldFiles; reflexivity.
Qed.

(** A primitive string among the elements makes the call throw. *)
Lemma sizeLoop_TypeError newLabel es :
  forall a r, (exists s, In (EString s) es) ->
    sizeLoop newLabel es a r = TypeError.
Proof.
  induction es as [|e es IH]; intros a r [s Hs]; [destruct Hs|].
  destruct e as [l|t]; simpl; [|reflexivity].
  destruct Hs as [Hs|Hs]; [discriminate|].
  destruct (startsWith _ _); [destruct (strictEq _ _)|]; apply IH; eauto.
Qed.

Lemma getLabelChanges_TypeError newLabel es flag s :
  In (EString s) es -> getLabelChanges newLabel es flag = TypeError.
Proof.
  intros Hs. unfold getLabelChanges.
  rewrite sizeLoop_TypeError by eauto. reflexivity.
Qed.

Lemma element_cases (es : list element) :
  (exists s, In (EString s) es) \/ exists labels, es = labelObjects labels.
Proof.
  induction es as [|[l|t] es [[s Hs]|[labels ->]]].
  - right. exists []. reflexivity.
  - left. exists s. right. exact Hs.
  - right. exists (l :: labels). reflexivity.
  - left. exists t. left. reflexivity.
  - left. exists t. left. reflexivity.
Qed.

(** The call returns exactly on the arrays that hold label objects only. *)
Lemma getLabelChanges_returns newLabel es flag :
  (exists d, getLabelChanges newLabel es flag = Ok d) <->
  exists labels, es = labelObjects labels.
Proof.
  split.
  - intros [d Hd]. destruct (element_cases es) as [[s Hs]|Hl]; [|exact Hl].
    rewrite (getLabelChanges_TypeError _ _ _ _ Hs) in Hd. discriminate.
  - intros [labels ->]. rewrite getLabelChanges_labelObjects. eauto.
Qed.
(** ** The loop returns the label of the last key not above the metric *)

Lemma foldl_sizeStep changedLines sizes ks :
  forall label,
    foldl (sizeStep changedLines sizes) label ks
    = match last (List.filter (fun k => (k <=? changedLines)%N) ks) with
      | Some k => Some (sizeName sizes k)
      | None => label
      end.
Proof.
  induction ks as [|k ks IH]; intros label; simpl; [reflexivity|].
  rewrite IH. unfold sizeStep.
  destruct (k <=? changedLines)%N; [|reflexivity].
  destruct (List.filter _ ks) as [|k' l] eqn:E; [reflexivity|].
  change (last (k :: k' :: l)) with (last (k' :: l)).
  destruct (last (k' :: l)) eqn:El; [reflexivity|].
  apply last_None in El. discriminate.
Qed.

(** In an ascending list, the last element not above [m] is the
    greatest such element. *)
Lemma last_filter_ascending (m : N) ks :
  StronglySorted N.le ks ->
  match last (List.filter (fun k => (k <=? m)%N) ks) with
  | Some k => In k ks /\ (k <= m)%N /\
              forall k', In k' ks -> (k' <= m)%N -> (k' <= k)%N
  | None => forall k, In k ks -> (m < k)%N
  end.
Proof.
  induction 1 as [|x ks Hs IH Hx]; simpl; [intros k []|].
  rewrite Forall_forall in Hx.
  destruct (N.leb_spec x m) as [Hxm|Hxm].
  - destruct (List.filter _ ks) as [|k' l] eqn:E.
    + simpl in *. split; [auto|]. split; [exact Hxm|].
      intros k' [<-|Hk'] Hle; [lia|]. specialize (IH k' Hk'). lia.
    + change (last (x :: k' :: l)) with (last (k' :: l)).
      destruct (last (k' :: l)) as [k|] eqn:El.
      * destruct IH as (Hin & Hle & Hmax). split; [auto|]. split; [exact Hle|].
        intros k'' [<-|Hk''] Hle''; [|auto].
        apply Hx, list_elem_of_In. exact Hin.
      * apply last_None in El. discriminate.
  - destruct (last (List.filter _ ks)) as [k|].
    + destruct IH as (Hin & Hle & Hmax). split; [auto|]. split; [exact Hle|].
      intros k' [<-|Hk'] Hle'; [lia|auto].
    + intros k [<-|Hk]; [exact Hxm|auto].
Qed.

Lemma sortedKeys_ascending sizes : StronglySorted N.le (sortedKeys sizes).
Proof. apply StronglySorted_merge_sort; apply _. Qed.

Lemma In_sortedKeys sizes k : In k (sortedKeys sizes) <-> is_Some (sizes !! k).
Proof.
  unfold sortedKeys, keys. rewrite <- list_elem_of_In, merge_sort_Permutation.
  rewrite list_elem_of_fmap. split.
  - intros ([k' v] & -> & Hkv). apply elem_of_map_to_list in Hkv. eauto.
  - intros [v Hv]. exists (k, v). split; [reflexivity|].
    apply elem_of_map_to_list. exact Hv.
Qed.

Lemma getSizeLabel_cases m sizes :
  (exists k v, sizes !! k = Some v /\ greatestKeyLe sizes m k /\
               getSizeLabel m (Some sizes) = Some ("size/" +:+ v))
  \/ ((forall k, is_Some (sizes !! k) -> (m < k)%N) /\
      getSizeLabel m (Some sizes) = None).
Proof.
  unfold getSizeLabel. simpl. rewrite foldl_sizeStep.
  pose proof (last_filter_ascending m _ (sortedKeys_ascending sizes)) as H.
  destruct (last _) as [k|].
  - destruct H as (Hin & Hle & Hmax). left.
    apply In_sortedKeys in Hin. destruct Hin as [v Hv].
    exists k, v. split; [exact Hv|]. split.
    + split; [eauto|]. split; [exact Hle|].
      intros k' Hk'. apply Hmax, In_sortedKeys, Hk'.
    + unfold sizeName. rewrite Hv. reflexivity.
  - right. split; [|reflexivity].
    intros k Hk. apply H, In_sortedKeys, Hk.
Qed.

Lemma greatestKeyLe_unique sizes m k1 k2 :
  greatestKeyLe sizes m k1 -> greatestKeyLe sizes m k2 -> k1 = k2.
Proof.
  intros (H1 & L1 & M1) (H2 & L2 & M2).
  specialize (M1 k2 H2 L2). specialize (M2 k1 H1 L1). lia.
Qed.


(** ** The rule loop of [isIgnored] *)

Section IgnoreLoop.

Context {regex : Type}.
Variable matches : string -> regex -> bool.

(** Once [ignore] is set, exclude rules are no longer tested: only a
    matching negate rule changes the outcome. *)
Lemma ignoreLoop_set pathname ignored :
  ignoreLoop matches pathname ignored true
  = negb (existsb (negateMatches matches pathname) ignored).
Proof.
  induction ignored as [|[re|re] rest IH]; simpl; [reflexivity| |exact IH].
  destruct (matches pathname re); [reflexivity | exact IH].
Qed.

Lemma ignoreLoop_unset pathname ignored :
  ignoreLoop matches pathname ignored false
  = negb (existsb (negateMatches matches pathname) ignored)
    && existsb (excludeMatches matches pathname) ignored.
Proof.
  induction ignored as [|[re|re] rest IH]; simpl; [reflexivity| |].
  - destruct (matches pathname re); [reflexivity | exact IH].
  - destruct (matches pathname re); simpl; [|exact IH].
    rewrite ignoreLoop_set, andb_true_r. reflexivity.
Qed.

(** The loop stops at a matching negate rule, whatever came before and
    whatever follows. *)
Lemma ignoreLoop_negate pathname before re after ignore :
  matches pathname re = true ->
  ignoreLoop matches pathname (before ++ Negate re :: after) ignore
  = false.
Proof.
  intros Hre. revert ignore.
  induction before as [|[re'|re'] before IH]; intros ignore; simpl.
  - rewrite Hre. reflexivity.
  - destruct (matches pathname re'); [reflexivity | apply IH].
  - destruct (negb ignore && matches pathname re'); apply IH.
Qed.

Lemma isIgnored_path ignored path :
  path <> "/dev/null" ->
  isIgnored matches ignored (Some path)
  = ignoreLoop matches (substr path 2) ignored false.
Proof.
  intros Hp. simpl. destruct (String.eqb_spec path "/dev/null");
    [contradiction | reflexivity].
Qed.

End IgnoreLoop.

(** The [ignored] array holds one entry per rule line, in the order of
    the lines. *)
Lemma compileRules_in_order {regex : Type} (globrex : string -> option regex)
    str ignored :
  compileRules globrex str = Some ignored <->
  Forall2 (fun s e => compileLine globrex s = Some e)
    (ruleLines (default "" str)) ignored.
Proof. unfold compileRules. apply mapM_Some. Qed.

(** ** The counting loops of [main] *)

Lemma total_app ls1 ls2 : total (ls1 ++ ls2) = (total ls1 + total ls2)%N.
Proof.
  unfold total. induction ls1 as [|l ls1 IH]; simpl; [reflexivity|].
  rewrite IH. lia.
Qed.

Lemma fold_lineStep ls :
  forall st : counter,
    fold_left lineStep ls st
    = ((fst st + total (List.filter isAdded ls))%N,
       snd st ++ map AddedLine (List.filter isAdded ls)).
Proof.
  induction ls as [|l ls IH]; intros [n out]; simpl.
  - rewrite N.add_0_r, app_nil_r. reflexivity.
  - rewrite IH. unfold lineStep. destruct (isAdded l); simpl; [|reflexivity].
    rewrite <- app_assoc. f_equal. unfold total. simpl. lia.
Qed.

Lemma fold_hunkStep hs :
  forall st : counter,
    fold_left hunkStep hs st
    = ((fst st + total (List.filter isAdded (concat (map lines hs))))%N,
       snd st ++ map AddedLine (List.filter isAdded (concat (map lines hs)))).
Proof.
  induction hs as [|h hs IH]; intros [n out]; simpl.
  - rewrite N.add_0_r, app_nil_r. reflexivity.
  - rewrite IH. unfold hunkStep. rewrite fold_lineStep. simpl.
    rewrite List.filter_app, map_app, total_app, <- app_assoc.
    f_equal. lia.
Qed.

Lemma fileStep_counts isIgnored (st : counter) f :
  counts isIgnored f = true ->
  fileStep isIgnored st f
  = ((fst st + addedCount f)%N, snd st ++ fileOutput f).
Proof.
  unfold counts, fileStep. rewrite negb_andb. intros ->.
  rewrite fold_hunkStep. simpl. unfold fileOutput, addedCount, addedLines.
  rewrite <- app_assoc.
  replace (fst st + total (List.filter isAdded (concat (map lines (hunks f))))
           - fst st)%N
    with (total (List.filter isAdded (concat (map lines (hunks f))))) by lia.
  reflexivity.
Qed.

Lemma fileStep_skips isIgnored (st : counter) f :
  counts isIgnored f = false -> fileStep isIgnored st f = st.
Proof.
  unfold counts, fileStep. rewrite negb_andb. intros ->. reflexivity.
Qed.

Lemma fold_fileStep isIgnored diffData :
  forall st : counter,
    fold_left (fileStep isIgnored) diffData st
    = ((fst st + fold_right N.add 0
                   (map addedCount (List.filter (counts isIgnored) diffData)))%N,
       snd st ++ concat (map fileOutput
                           (List.filter (counts isIgnored) diffData))).
Proof.
  induction diffData as [|f fs IH]; intros [n out]; simpl.
  - rewrite N.add_0_r, app_nil_r. reflexivity.
  - destruct (counts isIgnored f) eqn:Hf.
    + rewrite fileStep_counts by exact Hf. rewrite IH. simpl.
      rewrite <- app_assoc. f_equal. lia.
    + rewrite fileStep_skips by exact Hf. apply IH.
Qed.

(** ** The model on concrete inputs *)

Example getSizeLabel_thresholds :
  map (fun m => getSizeLabel m None) [0; 1; 9; 10; 99; 100; 4999; 5000; 20000]%N
  = [None; Some "size/XXS"; Some "size/XXS"; Some "size/XS"; Some "size/XS";
     Some "size/S"; Some "size/M"; Some "size/L"; Some "size/XXL"].
Proof. vm_compute. reflexivity. Qed.

(** A custom table is sorted before the loop runs. *)
Example getSizeLabel_custom :
  getSizeLabel 7 (Some (list_to_map [(50%N, "big"); (0%N, "tiny"); (5%N, "small")]))
  = Some "size/small".
Proof. vm_compute. reflexivity. Qed.

Example tierIndex_default :
  map (tierIndex defaultSizes) [None; Some "size/XXS"; Some "size/M"; Some "size/XXL"]
  = [0; 1; 4; 7]%nat.
Proof. vm_compute. reflexivity. Qed.

(** A stale size label is replaced; [translation] is asked for although it
    is attached. *)
Example getLabelChanges_replaces_size :
  getLabelChanges (Some "size/M")
    (labelObjects [Label "size/S"; Label "translation"]) false
  = Ok {| add := [Some "size/M"; Some "translation"]; remove := ["size/S"] |}.
Proof. reflexivity. Qed.

(** Without a size label, [add] starts with [null]. *)
Example getLabelChanges_null :
  getLabelChanges None (labelObjects [Label "size/S"; Label "size/XL"]) true
  = Ok {| add := [None; Some "translation"; Some "update"];
          remove := ["size/S"; "size/XL"] |}.
Proof. reflexivity. Qed.

(** An array of names instead of label objects makes the loop throw. *)
Example getLabelChanges_strings :
  getLabelChanges (Some "size/M") [EString "translation"] false = TypeError.
Proof. reflexivity. Qed.

Example ruleLines_sample :
  ruleLines ("  docs/**  " +:+ String "013" (String "010"
             ("# note" +:+ String "010" ("!docs/keep.md" +:+ String "010" "!"))))
  = ["docs/**"; "!docs/keep.md"; "!"].
Proof. reflexivity. Qed.

(** A lone [!] is an exclude rule for the pattern [!]. *)
Example compileLine_bang :
  compileLine Some "!" = Some (Exclude "!")
  /\ compileLine Some "!a" = Some (Negate "a").
Proof. split; reflexivity. Qed.

(** Two files, the second ignored on both sides: one added line with
    three Cyrillic code units is counted. *)
Example countUkrainian_sample :
  let added := [43; 1090; 1072; 1082; 32; 97]%N in
  let kept := File (Some "a/x.md") (Some "b/x.md")
                [Hunk [[32; 1090]%N; added; [45; 1090]%N]] in
  let skipped := File None (Some "b/docs/y.md") [Hunk [added]] in
  countUkrainian
    (isIgnored globModel [Exclude "docs/**"]) [kept; skipped]
  = (3%N, [AddedLine added; AddedInFile (Some "b/x.md") 3; Total 3]).
Proof. vm_compute. reflexivity. Qed.

(** * The properties of the specification *)

(** ** Reconciliation *)

Lemma In_add newLabel labels flag x :
  In x (sizeAdd newLabel labels ++ translationAdd newLabel ++ updateAdd flag) ->
  x = newLabel \/ x = Some "translation" \/ x = Some "update".
Proof.
  unfold sizeAdd, translationAdd, updateAdd.
  destruct (existsb _ labels), (strictEq "size/XXS" newLabel), flag;
    simpl; intuition.
Qed.

Lemma In_remove newLabel labels s :
  In s (map name (List.filter (isStale newLabel) labels)) <->
  exists l, In l labels /\ name l = s /\
            startsWith s "size/" = true /\ newLabel <> Some s.
Proof.
  rewrite in_map_iff. split.
  - intros (l & <- & Hl). apply filter_In in Hl. destruct Hl as [Hl Hs].
    unfold isStale in Hs. apply andb_true_iff in Hs. destruct Hs as [Hp Hn].
    apply negb_true_iff, strictEq_false in Hn. eauto.
  - intros (l & Hl & <- & Hp & Hn). exists l. split; [reflexivity|].
    apply filter_In. split; [exact Hl|]. unfold isStale.
    rewrite Hp. simpl. apply negb_true_iff, strictEq_false, Hn.
Qed.

(** On label objects a re-run asks for [translation] again whenever the
    desired label is not [size/XXS], whatever labels are attached. *)
Lemma translation_added_again newLabel labels flag :
  newLabel <> Some "size/XXS" ->
  exists d,
    getLabelChanges newLabel (labelObjects labels) flag = Ok d /\
    In (Some "translation") (add d).
Proof.
  intros Hn. rewrite getLabelChanges_labelObjects. eexists. split; [reflexivity|].
  cbn [add remove]. unfold translationAdd.
  apply strictEq_false in Hn. rewrite Hn.
  apply in_or_app. right. simpl. auto.
Qed.

(** C1, at a failing input: the desired label is [size/M], no label is
    attached and no old Markdown file was touched.  The first run asks
    for [size/M] and [translation]; once both are attached, the second
    run asks for [translation] again, so its delta is not empty. *)
Theorem rerun_after_apply_is_not_empty :
  let d := {| add := [Some "size/M"; Some "translation"]; remove := [] |} in
  getLabelChanges (Some "size/M") (labelObjects []) false = Ok d /\
  applyDelta d [] = [Label "size/M"; Label "translation"] /\
  getLabelChanges (Some "size/M") (labelObjects (applyDelta d [])) false
  = Ok {| add := [Some "translation"]; remove := [] |}.
Proof. repeat split. Qed.

(** C2, at two failing inputs.  With [size/XXS] desired and
    [translation] attached, nothing is removed; with [size/M] desired
    and [translation] attached, [translation] is added all the same. *)
Theorem translation_marker_ignores_current_labels :
  getLabelChanges (Some "size/XXS")
    (labelObjects [Label "size/XXS"; Label "translation"]) false
  = Ok {| add := []; remove := [] |} /\
  getLabelChanges (Some "size/M")
    (labelObjects [Label "size/M"; Label "translation"]) false
  = Ok {| add := [Some "translation"]; remove := [] |}.
Proof. split; reflexivity. Qed.

(** C3, at two failing inputs.  With [update] attached and the flag
    false, nothing is removed; with [update] attached and the flag
    true, [update] is added all the same. *)
Theorem update_marker_ignores_current_labels :
  getLabelChanges (Some "size/XXS")
    (labelObjects [Label "size/XXS"; Label "update"]) false
  = Ok {| add := []; remove := [] |} /\
  getLabelChanges (Some "size/XXS")
    (labelObjects [Label "size/XXS"; Label "update"]) true
  = Ok {| add := [Some "update"]; remove := [] |}.
Proof. split; reflexivity. Qed.

(** C4: when the metric is 0 and the classifier returns no label (as it
    does with the default table), the call on the attached label
    objects returns a delta whose [add] holds no name that starts with
    [size/], and whose [remove] holds the name of every attached label
    that starts with [size/]. *)
Theorem zero_metric_removes_every_size_label sizes labels flag :
  getSizeLabel 0 sizes = None ->
  exists d,
    getLabelChanges (getSizeLabel 0 sizes) (labelObjects labels) flag = Ok d /\
    (forall s, In (Some s) (add d) -> startsWith s "size/" = false) /\
    (forall l, In l labels -> startsWith (name l) "size/" = true ->
               In (name l) (remove d)).
Proof.
  intros ->. rewrite getLabelChanges_labelObjects.
  eexists. split; [reflexivity|]. cbn [add remove]. split.
  - intros s Hs. apply In_add in Hs.
    destruct Hs as [Hs|[Hs|Hs]]; [discriminate| |];
      injection Hs as ->; reflexivity.
  - intros l Hl Hp. apply In_remove. exists l. repeat split; auto; discriminate.
Qed.

Lemma zero_metric_removes_every_size_label_witness :
  getSizeLabel 0 None = None /\
  exists d,
    getLabelChanges (getSizeLabel 0 None)
      (labelObjects [Label "size/S"; Label "bug"; Label "size/XL"]) true
    = Ok d /\
    (forall s, In (Some s) (add d) -> startsWith s "size/" = false) /\
    (forall l, In l [Label "size/S"; Label "bug"; Label "size/XL"] ->
               startsWith (name l) "size/" = true -> In (name l) (remove d)).
Proof.
  split; [reflexivity|].
  apply (zero_metric_removes_every_size_label None); reflexivity.
Defined.

(** C5: on the attached label objects the call returns a delta in which
    no name is both in [add] and in [remove]. *)
Theorem add_and_remove_are_disjoint newLabel labels flag :
  exists d,
    getLabelChanges newLabel (labelObjects labels) flag = Ok d /\
    forall s, In (Some s) (add d) -> ~ In s (remove d).
Proof.
  rewrite getLabelChanges_labelObjects. eexists. split; [reflexivity|].
  cbn [add remove]. intros s Ha Hr. apply In_add in Ha. apply In_remove in Hr.
  destruct Hr as (l & _ & _ & Hp & Hn).
  destruct Ha as [Ha|[Ha|Ha]]; [congruence| |];
    injection Ha as ->; discriminate.
Qed.

(** C10: for a desired label that is [null] or starts with [size/], the
    call on the attached label objects returns a delta whose [add] has
    no duplicates and at most three entries. *)
Theorem add_has_no_duplicates newLabel labels flag :
  isSizeLabel newLabel ->
  exists d,
    getLabelChanges newLabel (labelObjects labels) flag = Ok d /\
    List.NoDup (add d) /\ (length (add d) <= 3)%nat.
Proof.
  intros Hs. rewrite getLabelChanges_labelObjects.
  eexists. split; [reflexivity|]. cbn [add remove].
  assert (Ht : newLabel <> Some "translation")
    by (intros ->; discriminate Hs).
  assert (Hu : newLabel <> Some "update")
    by (intros ->; discriminate Hs).
  unfold sizeAdd, translationAdd, updateAdd.
  destruct (existsb _ labels), (strictEq "size/XXS" newLabel), flag; simpl;
    (split; [|lia]);
    repeat (apply List.NoDup_cons; [simpl; intuition congruence|]);
    apply List.NoDup_nil.
Qed.

Lemma add_has_no_duplicates_witness :
  isSizeLabel (Some "size/M") /\
  exists d,
    getLabelChanges (Some "size/M")
      (labelObjects [Label "size/S"; Label "translation"]) true = Ok d /\
    List.NoDup (add d) /\ (length (add d) <= 3)%nat.
Proof.
  split; [reflexivity|].
  apply (add_has_no_duplicates (Some "size/M")). reflexivity.
Defined.

(** What [getSizeLabel] returns is [null] or starts with [size/]. *)
Lemma startsWith_size t : startsWith ("size/" +:+ t) "size/" = true.
Proof. destruct t; reflexivity. Qed.

Lemma getSizeLabel_isSizeLabel m sizes : isSizeLabel (getSizeLabel m sizes).
Proof.
  unfold getSizeLabel. rewrite foldl_sizeStep.
  destruct (last _); [apply startsWith_size | exact I].
Qed.

(** ** Classification *)

Lemma sortedKeys_defaultSizes :
  sortedKeys defaultSizes = [1; 10; 100; 1000; 5000; 10000; 20000]%N.
Proof. vm_compute. reflexivity. Qed.

(** Case analysis on every threshold test of the goal. *)
Ltac case_thresholds :=
  repeat match goal with
         | |- context [N.leb ?a ?b] => destruct (N.leb_spec a b)
         end.

(** The default table, read as a chain of tests from the top tier down. *)
Lemma getSizeLabel_default m :
  getSizeLabel m None
  = if (20000 <=? m)%N then Some "size/XXL"
    else if (10000 <=? m)%N then Some "size/XL"
    else if (5000 <=? m)%N then Some "size/L"
    else if (1000 <=? m)%N then Some "size/M"
    else if (100 <=? m)%N then Some "size/S"
    else if (10 <=? m)%N then Some "size/XS"
    else if (1 <=? m)%N then Some "size/XXS"
    else None.
Proof.
  unfold getSizeLabel. cbn [default]. rewrite sortedKeys_defaultSizes.
  cbn [foldl]. unfold sizeStep.
  repeat match goal with
         | |- context [sizeName defaultSizes ?k] =>
             let v := eval vm_compute in (sizeName defaultSizes k) in
             change (sizeName defaultSizes k) with v
         end.
  case_thresholds; try reflexivity; lia.
Qed.

(** C6: the label returned for a table (its keys are unique, being the
    keys of a map) is [size/] followed by the tier of the greatest key
    that is at most the metric; it is [null] exactly when every key is
    above the metric.  Without a table the default one is used, and
    metric 0 then gives [null]. *)
Theorem getSizeLabel_greatest_key m sizes :
  (forall l,
     getSizeLabel m (Some sizes) = Some l <->
     exists k v, sizes !! k = Some v /\ greatestKeyLe sizes m k /\
                 l = "size/" +:+ v) /\
  (getSizeLabel m (Some sizes) = None <->
   forall k, is_Some (sizes !! k) -> (m < k)%N) /\
  getSizeLabel m None = getSizeLabel m (Some defaultSizes) /\
  getSizeLabel 0 None = None.
Proof.
  split; [|split; [|split; reflexivity]].
  - intros l. destruct (getSizeLabel_cases m sizes)
      as [(k & v & Hv & Hk & ->)|[Hall ->]]; split.
    + intros [= <-]. eauto.
    + intros (k' & v' & Hv' & Hk' & ->).
      rewrite (greatestKeyLe_unique _ _ _ _ Hk Hk') in Hv. congruence.
    + discriminate.
    + intros (k & v & Hv & (Hs & Hle & _) & _).
      specialize (Hall k Hs). lia.
  - destruct (getSizeLabel_cases m sizes)
      as [(k & v & Hv & (Hs & Hle & _) & ->)|[Hall ->]]; split.
    + discriminate.
    + intros Hall. specialize (Hall k Hs). lia.
    + intros _. exact Hall.
    + reflexivity.
Qed.

Lemma getSizeLabel_greatest_key_witness :
  getSizeLabel 4999 (Some defaultSizes) = Some "size/M" /\
  (getSizeLabel 0 (Some defaultSizes) = None <->
   forall k, is_Some (defaultSizes !! k) -> (0 < k)%N).
Proof.
  pose proof (getSizeLabel_greatest_key 4999 defaultSizes) as [H _].
  pose proof (getSizeLabel_greatest_key 0 defaultSizes) as [_ [H0 _]].
  split; [|exact H0].
  apply H. exists 1000%N, "M". split; [reflexivity|]. split; [|reflexivity].
  split; [eexists; reflexivity|]. split; [lia|].
  intros k' Hk' Hle. apply In_sortedKeys in Hk'.
  rewrite sortedKeys_defaultSizes in Hk'. simpl in Hk'.
  intuition lia.
Defined.

(** C9: with the default table the tier index does not decrease when
    the metric grows. *)
Theorem default_classification_is_monotone m1 m2 :
  (m1 < m2)%N ->
  (tierIndex defaultSizes (getSizeLabel m1 None)
   <= tierIndex defaultSizes (getSizeLabel m2 None))%nat.
Proof.
  intros Hlt. rewrite !getSizeLabel_default.
  case_thresholds; try lia; vm_compute; lia.
Qed.

Lemma default_classification_is_monotone_witness :
  (9 < 10)%N /\
  (tierIndex defaultSizes (getSizeLabel 9 None)
   <= tierIndex defaultSizes (getSizeLabel 10 None))%nat.
Proof.
  split; [lia|]. apply (default_classification_is_monotone 9 10). lia.
Defined.

(** ** The ignore predicate and the files that count *)

(** C7: for a path other than [/dev/null], with [pathname] the path
    without its first two characters:
    - a matching negate rule makes the path not ignored, whatever rules
      stand before and after it;
    - when no negate rule matches, the path is ignored exactly when some
      exclude rule matches, and once [ignore] is set the exclude rules
      that follow have no effect;
    - a path that no rule matches is not ignored;
    - scenario D: when [globrex] builds a regular expression for each of
      the two patterns, [docs/keep.md] matches its own pattern, and
      [docs/other.md] matches [docs/**] but not [docs/keep.md], the
      predicate compiled from the two rule lines does not ignore
      [a/docs/keep.md] and ignores [a/docs/other.md]. *)
Theorem ignore_rules_in_declaration_order
    (regex : Type) (globrex : string -> option regex)
    (matches : string -> regex -> bool) :
  (forall before re after path,
     path <> "/dev/null" ->
     matches (substr path 2) re = true ->
     isIgnored matches (before ++ Negate re :: after) (Some path) = false) /\
  (forall ignored path,
     path <> "/dev/null" ->
     existsb (negateMatches matches (substr path 2)) ignored = false ->
     isIgnored matches ignored (Some path)
     = existsb (excludeMatches matches (substr path 2)) ignored) /\
  (forall ignored pathname,
     ignoreLoop matches pathname ignored true
     = negb (existsb (negateMatches matches pathname) ignored)) /\
  (forall ignored path,
     path <> "/dev/null" ->
     existsb (negateMatches matches (substr path 2)) ignored = false ->
     existsb (excludeMatches matches (substr path 2)) ignored = false ->
     isIgnored matches ignored (Some path) = false) /\
  (forall docs keep,
     globrex "docs/**" = Some docs ->
     globrex "docs/keep.md" = Some keep ->
     matches "docs/keep.md" keep = true ->
     matches "docs/other.md" docs = true ->
     matches "docs/other.md" keep = false ->
     exists isIgnored',
       parseIgnored globrex matches (Some scenarioRules) = Some isIgnored' /\
       isIgnored' (Some "a/docs/keep.md") = false /\
       isIgnored' (Some "a/docs/other.md") = true).
Proof.
  repeat apply conj.
  - intros before re after path Hp Hre.
    rewrite isIgnored_path by exact Hp. apply ignoreLoop_negate, Hre.
  - intros ignored path Hp Hn.
    rewrite isIgnored_path by exact Hp. rewrite ignoreLoop_unset, Hn.
    reflexivity.
  - intros ignored pathname. apply ignoreLoop_set.
  - intros ignored path Hp Hn He.
    rewrite isIgnored_path by exact Hp. rewrite ignoreLoop_unset, Hn, He.
    reflexivity.
  - intros docs keep Hdocs Hkeep Hkk Hod Hok.
    exists (isIgnored matches [Exclude docs; Negate keep]). split.
    + unfold parseIgnored, compileRules.
      change (ruleLines (default "" (Some scenarioRules)))
        with ["docs/**"; "!docs/keep.md"].
      assert (H1 : compileLine globrex "docs/**" = Some (Exclude docs)).
      { unfold compileLine. change (isNegation "docs/**") with false.
        cbv iota. rewrite Hdocs. reflexivity. }
      assert (H2 : compileLine globrex "!docs/keep.md" = Some (Negate keep)).
      { unfold compileLine. change (isNegation "!docs/keep.md") with true.
        change (substr "!docs/keep.md" 1) with "docs/keep.md".
        cbv iota. rewrite Hkeep. reflexivity. }
      cbn [mapM]. rewrite H1, H2. reflexivity.
    + split.
      * apply (ignoreLoop_negate matches "docs/keep.md" [Exclude docs]
                 keep [] false Hkk).
      * change (ignoreLoop matches "docs/other.md"
                  [Exclude docs; Negate keep] false = true).
        simpl. rewrite Hod, Hok. reflexivity.
Qed.

Lemma ignore_rules_in_declaration_order_witness :
  exists isIgnored',
    parseIgnored Some globModel (Some scenarioRules) = Some isIgnored' /\
    isIgnored' (Some "a/docs/keep.md") = false /\
    isIgnored' (Some "a/docs/other.md") = true.
Proof.
  apply (proj2 (proj2 (proj2 (proj2
           (ignore_rules_in_declaration_order string Some globModel))))
           "docs/**" "docs/keep.md"); reflexivity.
Defined.

(** C8: the character count is the sum of the counts of the files for
    which not both paths are ignored, and the lines printed are those of
    these files; a step of the file loop leaves the state as it was
    exactly when both the old and the new path of the file are ignored;
    a missing path and [/dev/null] are ignored whatever the rules. *)
Theorem file_counts_unless_both_paths_ignored
    (isIgnored' : option string -> bool) :
  (forall diffData,
     let included := List.filter (counts isIgnored') diffData in
     let n := fold_right N.add 0%N (map addedCount included) in
     countUkrainian isIgnored' diffData
     = (n, concat (map fileOutput included) ++ [Total n])) /\
  (forall (st : counter) f,
     fileStep isIgnored' st f = st <->
     isIgnored' (oldFileName f) = true /\
     isIgnored' (newFileName f) = true) /\
  (forall (st : counter) f,
     fileStep isIgnored' st f <> st <->
     isIgnored' (oldFileName f) = false \/
     isIgnored' (newFileName f) = false) /\
  (forall (regex : Type) (matches : string -> regex -> bool) ignored,
     isIgnored matches ignored None = true /\
     isIgnored matches ignored (Some "/dev/null") = true).
Proof.
  assert (Hstep : forall (st : counter) f,
             fileStep isIgnored' st f = st <->
             isIgnored' (oldFileName f) = true /\
             isIgnored' (newFileName f) = true).
  { intros st f. destruct (counts isIgnored' f) eqn:Hc.
    - rewrite fileStep_counts by exact Hc.
      unfold counts in Hc. apply negb_true_iff, andb_false_iff in Hc.
      split; [|intros [H1 H2]; destruct Hc; congruence].
      intros Heq. apply (f_equal (fun s => length (snd s))) in Heq.
      simpl in Heq. unfold fileOutput in Heq.
      rewrite !length_app in Heq. simpl in Heq. lia.
    - rewrite fileStep_skips by exact Hc.
      unfold counts in Hc. apply negb_false_iff, andb_true_iff in Hc.
      split; [intros _; exact Hc | reflexivity]. }
  repeat apply conj.
  - intros diffData. cbv zeta. unfold countUkrainian.
    rewrite fold_fileStep. reflexivity.
  - exact Hstep.
  - intros st f. rewrite Hstep.
    destruct (isIgnored' (oldFileName f)), (isIgnored' (newFileName f));
      intuition congruence.
  - intros regex matches ignored. split; reflexivity.
Qed.

(** * More of [main]: the update flag and the requests *)

(** [s.endsWith(suffix)]. *)
Definition endsWith (s suffix : string) : bool :=
  (String.length suffix <=? String.length s)%nat &&
  String.eqb (substr s (String.length s - String.length suffix)) suffix.

(** A file name as a condition: [undefined], [null] and the empty string
    are falsy. *)
Definition truthy (fileName : option string) : bool :=
  match fileName with
  | Some (String _ _) => true
  | Some EmptyString | None => false
  end.

(** The callback of [diffData.some] (lines 94-98). *)
Definition isOldMarkdown (f : file) : bool :=
  truthy (oldFileName f) && truthy (newFileName f) &&
  endsWith (default "" (oldFileName f)) ".md" &&
  endsWith (default "" (newFileName f)) ".md".

Definition hasUpdatedOldMarkdownFiles (diffData : list file) : bool :=
  existsb isOldMarkdown diffData.

(** Lines 76-108 of [main]: from the parsed diff, the compiled predicate,
    the configured table and the labels of the payload to the delta. *)
Definition labelChanges (isIgnored : option string -> bool)
    (diffData : list file) (sizes : option (gmap N string))
    (existingLabels : list element) : result delta :=
  let ukrainianCharactersNumber := fst (countUkrainian isIgnored diffData) in
  let hasUpdatedOldMarkdownFiles := hasUpdatedOldMarkdownFiles diffData in
  let sizeLabel := getSizeLabel ukrainianCharactersNumber sizes in
  getLabelChanges sizeLabel existingLabels hasUpdatedOldMarkdownFiles.

(** A call to the platform: [octokit.issues.addLabels] with its [labels],
    or [octokit.issues.removeLabel] with its [name]. *)
Inductive request : Type :=
| AddLabels (labels : list (option string))
| RemoveLabel (name : string).

(** How the promise of [main] settles. *)
Inductive outcome : Type :=
| Returned (value : bool)
| Rejected.

(** Lines 110-139.  [addLabelsResolves] tells whether the platform
    accepts the [addLabels] call; a rejection of it rejects [main].  A
    rejected [removeLabel] is caught and changes neither the calls that
    follow nor the value returned, so it is no parameter. *)
Definition applyChanges (addLabelsResolves : bool) (d : delta)
  : list request * outcome :=
  if (length (add d) =? 0)%nat && (length (remove d) =? 0)%nat
  then ([], Returned false)
  else if (0 <? length (add d))%nat then
    if addLabelsResolves
    then (AddLabels (add d) :: map RemoveLabel (remove d), Returned true)
    else ([AddLabels (add d)], Rejected)
  else (map RemoveLabel (remove d), Returned true).

(** Lines 76-139: the calls made and the way [main] settles. *)
Definition mainTail (isIgnored : option string -> bool)
    (diffData : list file) (sizes : option (gmap N string))
    (existingLabels : list element) (addLabelsResolves : bool)
  : list request * outcome :=
  match labelChanges isIgnored diffData sizes existingLabels with
  | TypeError => ([], Rejected)
  | Ok d => applyChanges addLabelsResolves d
  end.

(** * Further properties *)

(** ** The ignore predicate *)

Lemma existsb_Permutation {A} (f : A -> bool) l l' :
  Permutation l l' -> existsb f l = existsb f l'.
Proof.
  intros Hp. apply eq_true_iff_eq. rewrite !existsb_exists.
  split; intros (x & Hx & Hf); exists x; split; try exact Hf.
  - eapply Permutation_in; eassumption.
  - eapply Permutation_in; [symmetry|]; eassumption.
Qed.

(** X1: the order of the rules does not matter: two arrays with the same
    entries in any order give the same predicate. *)
Theorem isIgnored_rule_order_irrelevant
    (regex : Type) (matches : string -> regex -> bool)
    (ignored ignored' : list (entry regex)) (path : option string) :
  Permutation ignored ignored' ->
  isIgnored matches ignored path = isIgnored matches ignored' path.
Proof.
  intros Hp. destruct path as [path|]; [|reflexivity]. simpl.
  destruct (String.eqb path "/dev/null"); [reflexivity|].
  rewrite !ignoreLoop_unset.
  rewrite (existsb_Permutation _ _ _ Hp).
  rewrite (existsb_Permutation (excludeMatches _ _) _ _ Hp). reflexivity.
Qed.

Lemma isIgnored_rule_order_irrelevant_witness :
  Permutation [Exclude "docs/**"; Negate "docs/keep.md"]
              [Negate "docs/keep.md"; Exclude "docs/**"] /\
  isIgnored globModel [Exclude "docs/**"; Negate "docs/keep.md"]
    (Some "a/docs/keep.md")
  = isIgnored globModel [Negate "docs/keep.md"; Exclude "docs/**"]
      (Some "a/docs/keep.md").
Proof.
  split; [apply perm_swap|].
  apply (isIgnored_rule_order_irrelevant string globModel). apply perm_swap.
Defined.

(** X2: when no rule line is left after trimming and dropping blank and
    comment lines (as for an unset [IGNORED]), the predicate is built,
    and it ignores a missing path and [/dev/null] and nothing else. *)
Theorem parseIgnored_without_rules
    (regex : Type) (globrex : string -> option regex)
    (matches : string -> regex -> bool) (str : option string) :
  ruleLines (default "" str) = [] ->
  exists isIgnored',
    parseIgnored globrex matches str = Some isIgnored' /\
    forall path,
      isIgnored' path = true <-> path = None \/ path = Some "/dev/null".
Proof.
  intros Hr. exists (isIgnored matches []). split.
  - unfold parseIgnored, compileRules. rewrite Hr. reflexivity.
  - intros [path|]; simpl; [|tauto].
    destruct (String.eqb_spec path "/dev/null") as [->|Hn].
    + tauto.
    + split; [discriminate|]. intros [H|[= H]]; [discriminate|contradiction].
Qed.

Lemma parseIgnored_without_rules_witness :
  ruleLines (default "" (Some ("# only a note" +:+ String "010" "   "))) = [] /\
  exists isIgnored',
    parseIgnored Some globModel
      (Some ("# only a note" +:+ String "010" "   ")) = Some isIgnored' /\
    forall path,
      isIgnored' path = true <-> path = None \/ path = Some "/dev/null".
Proof.
  split; [reflexivity|].
  apply (parseIgnored_without_rules string Some globModel). reflexivity.
Defined.

(** X4: the first two characters of a path are dropped without being
    looked at: two paths other than [/dev/null] that agree from the third
    character on are ignored alike. *)
Theorem isIgnored_prefix_not_inspected
    (regex : Type) (matches : string -> regex -> bool)
    (ignored : list (entry regex)) (path path' : string) :
  path <> "/dev/null" -> path' <> "/dev/null" ->
  substr path 2 = substr path' 2 ->
  isIgnored matches ignored (Some path)
  = isIgnored matches ignored (Some path').
Proof.
  intros Hp Hp' Heq. rewrite !isIgnored_path by assumption.
  rewrite Heq. reflexivity.
Qed.

Lemma isIgnored_prefix_not_inspected_witness :
  "a/docs/x.md" <> "/dev/null" /\ "b/docs/x.md" <> "/dev/null" /\
  substr "a/docs/x.md" 2 = substr "b/docs/x.md" 2 /\
  isIgnored globModel [Exclude "docs/**"] (Some "a/docs/x.md")
  = isIgnored globModel [Exclude "docs/**"] (Some "b/docs/x.md").
Proof.
  split; [discriminate|]. split; [discriminate|]. split; [reflexivity|].
  apply (isIgnored_prefix_not_inspected string globModel);
    [discriminate | discriminate | reflexivity].
Defined.

(** X5: one more exclude rule, wherever it is put, never makes an ignored
    path count again, and one more negate rule never makes a path
    ignored. *)
Theorem isIgnored_monotone
    (regex : Type) (matches : string -> regex -> bool)
    (before after : list (entry regex)) (re : regex) (path : option string) :
  (isIgnored matches (before ++ after) path = true ->
   isIgnored matches (before ++ Exclude re :: after) path = true) /\
  (isIgnored matches (before ++ Negate re :: after) path = true ->
   isIgnored matches (before ++ after) path = true).
Proof.
  destruct path as [path|]; [|split; reflexivity]. simpl.
  destruct (String.eqb path "/dev/null"); [split; reflexivity|].
  rewrite !ignoreLoop_unset, !existsb_app. simpl.
  destruct (existsb (negateMatches matches (substr path 2)) before),
    (existsb (negateMatches matches (substr path 2)) after),
    (existsb (excludeMatches matches (substr path 2)) before),
    (existsb (excludeMatches matches (substr path 2)) after),
    (matches (substr path 2) re); simpl; split; congruence.
Qed.

(** X6: the predicate is not built exactly when [globrex] throws on one of
    the rule lines, whichever line it is. *)
Theorem parseIgnored_fails_iff
    (regex : Type) (globrex : string -> option regex)
    (matches : string -> regex -> bool) (str : option string) :
  parseIgnored globrex matches str = None <->
  exists s, In s (ruleLines (default "" str)) /\
            globrex (if isNegation s then substr s 1 else s) = None.
Proof.
  unfold parseIgnored, compileRules.
  destruct (mapM _ _) as [es|] eqn:E; simpl.
  - split; [discriminate|]. intros (s & Hs & Hg).
    apply mapM_Some_1 in E.
    apply list_elem_of_In in Hs.
    apply list_elem_of_lookup in Hs. destruct Hs as [i Hi].
    destruct (Forall2_lookup_l _ _ _ i s E Hi) as (e & _ & He).
    unfold compileLine in He. destruct (isNegation s); rewrite Hg in He;
      discriminate.
  - split; [intros _|reflexivity].
    apply mapM_None_1, Exists_exists in E. destruct E as (s & Hs & Hc).
    exists s. split; [apply list_elem_of_In, Hs|].
    unfold compileLine in Hc.
    destruct (isNegation s), (globrex _); simpl in Hc; congruence.
Qed.

(** ** The rule lines *)

(** A carriage return or a line feed, the separators of [split]. *)
Definition isNewline (c : ascii) : bool :=
  (Ascii.eqb c "013" || Ascii.eqb c "010")%char.

(** No character of [s] satisfies [p]. *)
Fixpoint free (p : ascii -> bool) (s : string) : bool :=
  match s with
  | EmptyString => true
  | String c rest => negb (p c) && free p rest
  end.

Lemma splitLines_free str :
  Forall (fun piece => free isNewline piece = true) (splitLines str).
Proof.
  induction str as [|c rest IH]; simpl.
  - repeat constructor.
  - fold (isNewline c). destruct (isNewline c) eqn:Hc.
    + constructor; [reflexivity | exact IH].
    + destruct (splitLines rest) as [|piece pieces].
      * repeat constructor. simpl. rewrite Hc. reflexivity.
      * inversion IH as [|? ? Hp Hps]; subst. constructor; [|exact Hps].
        simpl. rewrite Hc, Hp. reflexivity.
Qed.

Lemma trimStart_free p s : free p s = true -> free p (trimStart s) = true.
Proof.
  induction s as [|c rest IH]; simpl; [reflexivity|].
  intros H. apply andb_true_iff in H. destruct H as [Hc Hr].
  destruct (isSpace c); [apply IH, Hr|]. simpl. rewrite Hc, Hr. reflexivity.
Qed.

Lemma trimEnd_free p s : free p s = true -> free p (trimEnd s) = true.
Proof.
  induction s as [|c rest IH]; simpl; [reflexivity|].
  intros H. apply andb_true_iff in H. destruct H as [Hc Hr].
  specialize (IH Hr). destruct (trimEnd rest) as [|c' rest'].
  - destruct (isSpace c); simpl; [reflexivity|]. rewrite Hc. reflexivity.
  - simpl in *. rewrite Hc, IH. reflexivity.
Qed.

Lemma trimEnd_idempotent s : trimEnd (trimEnd s) = trimEnd s.
Proof.
  induction s as [|c rest IH]; simpl; [reflexivity|].
  destruct (trimEnd rest) as [|c' rest'] eqn:E.
  - destruct (isSpace c) eqn:Hc; simpl; [reflexivity|]. rewrite Hc. reflexivity.
  - change (trimEnd (String c (String c' rest')))
      with (match trimEnd (String c' rest') with
            | EmptyString =>
                if isSpace c then EmptyString else String c EmptyString
            | String a r => String c (String a r)
            end).
    rewrite IH. reflexivity.
Qed.

(** A string that is empty or starts with a character that is no white
    space. *)
Definition startsClean (s : string) : bool :=
  match s with
  | EmptyString => true
  | String c _ => negb (isSpace c)
  end.

Lemma trimStart_startsClean s : startsClean (trimStart s) = true.
Proof.
  induction s as [|c rest IH]; simpl; [reflexivity|].
  destruct (isSpace c) eqn:Hc; [exact IH|]. simpl. rewrite Hc. reflexivity.
Qed.

Lemma trimStart_clean s : startsClean s = true -> trimStart s = s.
Proof.
  destruct s as [|c rest]; simpl; [reflexivity|].
  intros H. apply negb_true_iff in H. rewrite H. reflexivity.
Qed.

Lemma trimEnd_startsClean s :
  startsClean s = true -> startsClean (trimEnd s) = true.
Proof.
  destruct s as [|c rest]; simpl; [reflexivity|].
  intros H. destruct (trimEnd rest); [|exact H].
  apply negb_true_iff in H. rewrite H. simpl. rewrite H. reflexivity.
Qed.

Lemma trim_idempotent s : trim (trim s) = trim s.
Proof.
  unfold trim.
  rewrite (trimStart_clean (trimEnd (trimStart s)))
    by apply trimEnd_startsClean, trimStart_startsClean.
  apply trimEnd_idempotent.
Qed.

(** The last character of a string, if any. *)
Fixpoint lastChar (s : string) : option ascii :=
  match s with
  | EmptyString => None
  | String c EmptyString => Some c
  | String _ rest => lastChar rest
  end.

Lemma trimEnd_lastChar s c : lastChar (trimEnd s) = Some c -> isSpace c = false.
Proof.
  induction s as [|a rest IH]; simpl; [discriminate|].
  destruct (trimEnd rest) as [|c' rest'] eqn:E.
  - destruct (isSpace a) eqn:Ha; simpl; [discriminate|]. intros [= <-]. exact Ha.
  - intros H. apply IH. exact H.
Qed.

(** X3: every rule line that is kept is not empty, is no comment, has no
    white space at either end (trimming it again changes nothing) and
    holds no carriage return or line feed. *)
Theorem ruleLines_are_clean (str s : string) :
  In s (ruleLines str) ->
  s <> "" /\ startsWith s "#" = false /\ trim s = s /\
  startsClean s = true /\
  (forall c, lastChar s = Some c -> isSpace c = false) /\
  free isNewline s = true.
Proof.
  unfold ruleLines. intros Hs. apply filter_In in Hs.
  destruct Hs as [Hs Hk]. apply andb_true_iff in Hk. destruct Hk as [Hl Hc].
  apply in_map_iff in Hs. destruct Hs as (piece & <- & Hp).
  split; [intros E; rewrite E in Hl; discriminate|].
  split; [apply negb_true_iff, Hc|].
  split; [apply trim_idempotent|].
  split; [apply trimEnd_startsClean, trimStart_startsClean|].
  split; [intros c; apply trimEnd_lastChar|].
  apply trimEnd_free, trimStart_free.
  pose proof (splitLines_free str) as Hf. rewrite Forall_forall in Hf.
  apply Hf, list_elem_of_In, Hp.
Qed.

Lemma ruleLines_are_clean_witness :
  In "!docs/keep.md"
    (ruleLines ("  docs/**  " +:+ String "013" (String "010"
                ("# note" +:+ String "010" "  !docs/keep.md ")))) /\
  trim "!docs/keep.md" = "!docs/keep.md".
Proof.
  split; [right; left; reflexivity|].
  apply (ruleLines_are_clean
           ("  docs/**  " +:+ String "013" (String "010"
            ("# note" +:+ String "010" "  !docs/keep.md ")))).
  right. left. reflexivity.
Defined.

(** ** The character count *)

Definition sumN (ns : list N) : N := fold_right N.add 0%N ns.

Lemma sumN_app ns ms : sumN (ns ++ ms) = (sumN ns + sumN ms)%N.
Proof.
  unfold sumN. induction ns as [|n ns IH]; simpl; [reflexivity|].
  rewrite IH. lia.
Qed.

Lemma sumN_zero ns : sumN ns = 0%N <-> forall n, In n ns -> n = 0%N.
Proof.
  unfold sumN. induction ns as [|n ns IH]; simpl.
  - split; [intros _ n []|reflexivity].
  - split.
    + intros H n' [<-|Hn]; [lia|]. apply IH; [lia|exact Hn].
    + intros H. rewrite (H n) by auto.
      rewrite (proj2 IH) by auto. reflexivity.
Qed.

Lemma countUkrainian_fst isIgnored' diffData :
  fst (countUkrainian isIgnored' diffData)
  = sumN (map addedCount (List.filter (counts isIgnored') diffData)).
Proof.
  unfold countUkrainian. rewrite fold_fileStep. reflexivity.
Qed.

Lemma countUkrainian_snd isIgnored' diffData :
  snd (countUkrainian isIgnored' diffData)
  = concat (map fileOutput (List.filter (counts isIgnored') diffData))
    ++ [Total (fst (countUkrainian isIgnored' diffData))].
Proof.
  unfold countUkrainian. rewrite fold_fileStep. reflexivity.
Qed.

(** X7: the count of a diff made of two parts is the sum of the counts of
    the parts, whichever part comes first. *)
Theorem countUkrainian_additive
    (isIgnored' : option string -> bool) (diffData diffData' : list file) :
  fst (countUkrainian isIgnored' (diffData ++ diffData'))
  = (fst (countUkrainian isIgnored' diffData)
     + fst (countUkrainian isIgnored' diffData'))%N /\
  fst (countUkrainian isIgnored' (diffData ++ diffData'))
  = fst (countUkrainian isIgnored' (diffData' ++ diffData)).
Proof.
  rewrite !countUkrainian_fst, !List.filter_app, !map_app, !sumN_app.
  split; lia.
Qed.

(** The numbers printed per file. *)
Definition printedPerFile (out : list output) : list N :=
  flat_map (fun o => match o with
                     | AddedInFile _ added => [added]
                     | AddedLine _ | Total _ => []
                     end) out.

(** The added lines printed. *)
Definition printedLines (out : list output) : list (list N) :=
  flat_map (fun o => match o with
                     | AddedLine line => [line]
                     | AddedInFile _ _ | Total _ => []
                     end) out.

Lemma printedPerFile_fileOutput f : printedPerFile (fileOutput f) = [addedCount f].
Proof.
  unfold fileOutput, printedPerFile. rewrite flat_map_app. simpl.
  induction (addedLines f) as [|l ls IH]; simpl; [reflexivity | exact IH].
Qed.

Lemma printedLines_fileOutput f : printedLines (fileOutput f) = addedLines f.
Proof.
  unfold fileOutput, printedLines. rewrite flat_map_app. simpl.
  rewrite app_nil_r.
  induction (addedLines f) as [|l ls IH]; simpl; [reflexivity|].
  rewrite IH. reflexivity.
Qed.

(** X8: what is printed agrees with what is counted: the last line printed
    is the total, the numbers printed per file add up to it, and so do
    the matches of the added lines printed. *)
Theorem countUkrainian_output_adds_up
    (isIgnored' : option string -> bool) (diffData : list file) :
  let n := fst (countUkrainian isIgnored' diffData) in
  let out := snd (countUkrainian isIgnored' diffData) in
  last out = Some (Total n) /\
  sumN (printedPerFile out) = n /\
  sumN (map matchCount (printedLines out)) = n.
Proof.
  cbv zeta. rewrite countUkrainian_snd, countUkrainian_fst.
  split; [apply last_snoc|].
  unfold printedPerFile, printedLines. rewrite !flat_map_app. simpl.
  rewrite !app_nil_r.
  induction (List.filter (counts isIgnored') diffData) as [|f fs [IH1 IH2]];
    simpl; [split; reflexivity|].
  rewrite !flat_map_app, map_app, !sumN_app.
  fold (printedPerFile (fileOutput f)). fold (printedLines (fileOutput f)).
  rewrite printedPerFile_fileOutput, printedLines_fileOutput.
  rewrite IH1, IH2. unfold addedCount, total, sumN. simpl. split; lia.
Qed.

Lemma matchCount_zero line :
  matchCount line = 0%N <-> forall c, In c line -> isUkrainian c = false.
Proof.
  unfold matchCount. induction line as [|c line IH]; simpl.
  - split; [intros _ c []|reflexivity].
  - destruct (isUkrainian c) eqn:Hc; simpl.
    + split; [lia|]. intros H. specialize (H c (or_introl eq_refl)). congruence.
    + rewrite IH. split.
      * intros H c' [<-|Hc']; [exact Hc|auto].
      * intros H c' Hc'. auto.
Qed.

(** X9: the count is 0 exactly when no added line of a file that counts
    holds a code unit of the Cyrillic block. *)
Theorem countUkrainian_zero_iff
    (isIgnored' : option string -> bool) (diffData : list file) :
  fst (countUkrainian isIgnored' diffData) = 0%N <->
  forall f h line c,
    In f diffData -> counts isIgnored' f = true ->
    In h (hunks f) -> In line (lines h) -> isAdded line = true ->
    In c line -> isUkrainian c = false.
Proof.
  rewrite countUkrainian_fst, sumN_zero. split.
  - intros H f h line c Hf Hc Hh Hl Ha.
    apply matchCount_zero.
    assert (Hz : addedCount f = 0%N).
    { apply H, in_map, filter_In. auto. }
    unfold addedCount, total in Hz. fold (sumN (map matchCount (addedLines f))) in Hz.
    rewrite sumN_zero in Hz. apply Hz, in_map.
    unfold addedLines. apply filter_In. split; [|exact Ha].
    apply in_concat. exists (lines h). split; [apply in_map, Hh | exact Hl].
  - intros H n Hn. apply in_map_iff in Hn. destruct Hn as (f & <- & Hf).
    apply filter_In in Hf. destruct Hf as [Hf Hc].
    unfold addedCount, total. fold (sumN (map matchCount (addedLines f))).
    apply sumN_zero. intros m Hm. apply in_map_iff in Hm.
    destruct Hm as (line & <- & Hl). unfold addedLines in Hl.
    apply filter_In in Hl. destruct Hl as [Hl Ha].
    apply in_concat in Hl. destruct Hl as (ls & Hls & Hl).
    apply in_map_iff in Hls. destruct Hls as (h & <- & Hh).
    apply matchCount_zero. intros c. apply (H f h line c); assumption.
Qed.

(** X21: with the compiled predicate, a file that is created or deleted
    (a missing name or [/dev/null] on one side) counts exactly when its
    other name is not ignored, and a file with no name on either side
    never counts. *)
Theorem created_or_deleted_file_counts_by_its_name
    (regex : Type) (matches : string -> regex -> bool)
    (ignored : list (entry regex)) (f : file) :
  let missing (n : option string) := n = None \/ n = Some "/dev/null" in
  (missing (oldFileName f) ->
   counts (isIgnored matches ignored) f
   = negb (isIgnored matches ignored (newFileName f))) /\
  (missing (newFileName f) ->
   counts (isIgnored matches ignored) f
   = negb (isIgnored matches ignored (oldFileName f))) /\
  (missing (oldFileName f) -> missing (newFileName f) ->
   forall st : counter, fileStep (isIgnored matches ignored) st f = st).
Proof.
  cbv zeta. unfold counts.
  assert (Hm : forall n, n = None \/ n = Some "/dev/null" ->
                         isIgnored matches ignored n = true)
    by (intros n [->| ->]; reflexivity).
  repeat split.
  - intros Ho. rewrite (Hm _ Ho). reflexivity.
  - intros Hn. rewrite (Hm _ Hn), andb_true_r. reflexivity.
  - intros Ho Hn st. apply fileStep_skips. unfold counts.
    rewrite (Hm _ Ho), (Hm _ Hn). reflexivity.
Qed.

Lemma created_or_deleted_file_counts_by_its_name_witness :
  counts (isIgnored globModel [Exclude "docs/**"])
    (File (Some "/dev/null") (Some "b/docs/new.md") [])
  = negb (isIgnored globModel [Exclude "docs/**"] (Some "b/docs/new.md")).
Proof.
  apply (proj1 (created_or_deleted_file_counts_by_its_name string globModel
                  [Exclude "docs/**"]
                  (File (Some "/dev/null") (Some "b/docs/new.md") []))).
  right. reflexivity.
Defined.

(** ** The update flag *)

Lemma length_append s t :
  String.length (s +:+ t) = (String.length s + String.length t)%nat.
Proof. induction s as [|c s IH]; simpl; [reflexivity | rewrite IH; reflexivity]. Qed.

Lemma substr_append s t : substr (s +:+ t) (String.length s) = t.
Proof. induction s as [|c s IH]; simpl; [destruct t; reflexivity | exact IH]. Qed.

Lemma substr_split s n :
  (n <= String.length s)%nat ->
  exists pre, String.length pre = n /\ s = pre +:+ substr s n.
Proof.
  revert s. induction n as [|n IH]; intros s Hn.
  - exists "". split; [reflexivity|]. destruct s; reflexivity.
  - destruct s as [|c s]; simpl in Hn; [lia|].
    destruct (IH s) as (pre & Hl & Hs); [lia|].
    exists (String c pre). split; [simpl; lia|].
    change (String c s = String c (pre +:+ substr s n)). f_equal. exact Hs.
Qed.

(** [endsWith] holds exactly of the strings that are some text followed
    by the suffix. *)
Lemma endsWith_iff s suffix :
  endsWith s suffix = true <-> exists pre, s = pre +:+ suffix.
Proof.
  unfold endsWith. rewrite andb_true_iff, Nat.leb_le, String.eqb_eq. split.
  - intros [Hl He].
    destruct (substr_split s (String.length s - String.length suffix))
      as (pre & _ & Hs); [lia|].
    exists pre. rewrite He in Hs. exact Hs.
  - intros [pre ->]. rewrite length_append. split; [lia|].
    replace (String.length pre + String.length suffix - String.length suffix)%nat
      with (String.length pre) by lia.
    apply substr_append.
Qed.

Lemma isOldMarkdown_iff f :
  isOldMarkdown f = true <->
  exists old new,
    oldFileName f = Some (old +:+ ".md") /\
    newFileName f = Some (new +:+ ".md").
Proof.
  unfold isOldMarkdown. rewrite !andb_true_iff, !endsWith_iff. split.
  - intros [[[Ho Hn] [old Hold]] [new Hnew]].
    destruct (oldFileName f) as [o|]; [|discriminate].
    destruct (newFileName f) as [n|]; [|discriminate].
    simpl in *. subst. eauto.
  - intros (old & new & -> & ->). simpl.
    repeat split; eauto; destruct old, new; reflexivity.
Qed.

(** X10: the flag is set exactly when some file of the diff has an old
    and a new name that both end in [.md]; a file that is created or
    deleted (a missing name or [/dev/null] on one side) never sets it,
    whatever its other name is. *)
Theorem hasUpdatedOldMarkdownFiles_iff (diffData : list file) :
  (hasUpdatedOldMarkdownFiles diffData = true <->
   exists f old new,
     In f diffData /\
     oldFileName f = Some (old +:+ ".md") /\
     newFileName f = Some (new +:+ ".md")) /\
  ((forall f, In f diffData ->
      oldFileName f = None \/ oldFileName f = Some "/dev/null" \/
      newFileName f = None \/ newFileName f = Some "/dev/null") ->
   hasUpdatedOldMarkdownFiles diffData = false).
Proof.
  assert (Hiff : hasUpdatedOldMarkdownFiles diffData = true <->
                 exists f old new,
                   In f diffData /\
                   oldFileName f = Some (old +:+ ".md") /\
                   newFileName f = Some (new +:+ ".md")).
  { unfold hasUpdatedOldMarkdownFiles. rewrite existsb_exists. split.
    - intros (f & Hf & Hm). apply isOldMarkdown_iff in Hm.
      destruct Hm as (old & new & Ho & Hn). eauto 6.
    - intros (f & old & new & Hf & Ho & Hn). exists f. split; [exact Hf|].
      apply isOldMarkdown_iff. eauto. }
  split; [exact Hiff|].
  intros Hall. apply not_true_iff_false. rewrite Hiff.
  intros (f & old & new & Hf & Ho & Hn).
  assert (Hmd : forall pre, pre +:+ ".md" <> "/dev/null").
  { intros pre E. apply (f_equal (fun s => endsWith s ".md")) in E.
    rewrite (proj2 (endsWith_iff _ _)) in E by eauto. discriminate. }
  destruct (Hall f Hf) as [H|[H|[H|H]]]; rewrite H in *;
    try discriminate; [injection Ho | injection Hn]; intros E;
    symmetry in E; exact (Hmd _ E).
Qed.

Lemma hasUpdatedOldMarkdownFiles_iff_witness :
  hasUpdatedOldMarkdownFiles
    [File (Some "/dev/null") (Some "b/new.md") [];
     File (Some "a/gone.md") None []] = false.
Proof.
  apply (proj2 (hasUpdatedOldMarkdownFiles_iff _)).
  intros f [<-|[<-|[]]]; simpl; auto.
Defined.

(** ** Classification *)

(** X11: the intervals of the default table: no label for 0, [size/XXS]
    from 1 to 9, [size/XS] from 10 to 99, [size/S] from 100 to 999,
    [size/M] from 1000 to 4999, [size/L] from 5000 to 9999, [size/XL]
    from 10000 to 19999 and [size/XXL] from 20000 on; a lower bound
    belongs to its own tier. *)
Theorem getSizeLabel_default_intervals (m : N) :
  (getSizeLabel m None = None <-> m = 0%N) /\
  (getSizeLabel m None = Some "size/XXS" <-> (1 <= m < 10)%N) /\
  (getSizeLabel m None = Some "size/XS" <-> (10 <= m < 100)%N) /\
  (getSizeLabel m None = Some "size/S" <-> (100 <= m < 1000)%N) /\
  (getSizeLabel m None = Some "size/M" <-> (1000 <= m < 5000)%N) /\
  (getSizeLabel m None = Some "size/L" <-> (5000 <= m < 10000)%N) /\
  (getSizeLabel m None = Some "size/XL" <-> (10000 <= m < 20000)%N) /\
  (getSizeLabel m None = Some "size/XXL" <-> (20000 <= m)%N).
Proof.
  rewrite getSizeLabel_default. case_thresholds;
    repeat split; intros; try discriminate; try lia; try reflexivity.
Qed.

(** X12: for any table, the label changes only at a key: two metrics with
    no key above the smaller and at most the larger get the same label;
    and once a metric gets a label, every larger metric gets one. *)
Theorem getSizeLabel_changes_only_at_keys
    (sizes : gmap N string) (m1 m2 : N) :
  (m1 <= m2)%N ->
  ((forall k, is_Some (sizes !! k) -> ~ (m1 < k <= m2)%N) ->
   getSizeLabel m1 (Some sizes) = getSizeLabel m2 (Some sizes)) /\
  (getSizeLabel m1 (Some sizes) <> None ->
   getSizeLabel m2 (Some sizes) <> None).
Proof.
  intros Hle.
  destruct (getSizeLabel_cases m1 sizes)
    as [(k1 & v1 & Hv1 & (Hs1 & Hk1 & Hmax1) & ->)|[Hall1 ->]];
  destruct (getSizeLabel_cases m2 sizes)
    as [(k2 & v2 & Hv2 & (Hs2 & Hk2 & Hmax2) & ->)|[Hall2 ->]];
  split; try congruence.
  - intros Hgap.
    assert (k2 <= m1)%N by (specialize (Hgap k2 Hs2); lia).
    assert (k1 = k2).
    { specialize (Hmax1 k2 Hs2). specialize (Hmax2 k1 Hs1). lia. }
    subst. congruence.
  - intros _. specialize (Hall2 k1 Hs1). lia.
  - intros _ _. specialize (Hall2 k1 Hs1). lia.
  - intros Hgap. specialize (Hgap k2 Hs2). specialize (Hall1 k2 Hs2). lia.
Qed.

Lemma getSizeLabel_changes_only_at_keys_witness :
  (12 <= 99)%N /\
  getSizeLabel 12 (Some defaultSizes) = getSizeLabel 99 (Some defaultSizes).
Proof.
  split; [lia|].
  apply (getSizeLabel_changes_only_at_keys defaultSizes 12 99); [lia|].
  intros k Hk Hgap. apply In_sortedKeys in Hk.
  rewrite sortedKeys_defaultSizes in Hk. simpl in Hk.
  intuition lia.
Defined.

(** ** Reconciliation *)


(** An attached name that is a size label other than the desired one. *)
Definition staleName (newLabel : option string) (s : string) : bool :=
  startsWith s "size/" && negb (strictEq s newLabel).

Lemma filter_isStale newLabel labels :
  map name (List.filter (isStale newLabel) labels)
  = List.filter (staleName newLabel) (map name labels).
Proof.
  induction labels as [|l labels IH]; simpl; [reflexivity|].
  unfold isStale, staleName in *.
  destruct (startsWith (name l) "size/" && negb (strictEq (name l) newLabel));
    simpl; rewrite IH; reflexivity.
Qed.

Lemma existsb_isDesired s labels :
  startsWith s "size/" = true ->
  (existsb (isDesired (Some s)) labels = true <->
   exists l, In l labels /\ name l = s).
Proof.
  intros Hs. rewrite existsb_exists. split.
  - intros (l & Hl & Hd). unfold isDesired in Hd.
    apply andb_true_iff in Hd. destruct Hd as [_ Hd].
    apply strictEq_true in Hd. injection Hd as ->. eauto.
  - intros (l & Hl & <-). exists l. split; [exact Hl|].
    unfold isDesired. rewrite Hs. simpl. apply String.eqb_refl.
Qed.

(** X14: the size family.  On label objects, [remove] is the list of the
    attached names that start with [size/] and differ from the desired
    label, in the order of the payload and once per occurrence; and a
    desired size label is in [add] exactly when it is not attached. *)
Theorem size_family_is_reconciled
    (newLabel : option string) (labels : list label) (flag : bool) :
  exists d,
    getLabelChanges newLabel (labelObjects labels) flag = Ok d /\
    remove d = List.filter (staleName newLabel) (map name labels) /\
    forall s, newLabel = Some s -> startsWith s "size/" = true ->
      (In (Some s) (add d) <-> ~ exists l, In l labels /\ name l = s).
Proof.
  rewrite getLabelChanges_labelObjects. eexists. split; [reflexivity|].
  cbn [add remove]. split; [apply filter_isStale|].
  intros s -> Hs. rewrite <- (existsb_isDesired s labels Hs).
  unfold sizeAdd, translationAdd, updateAdd.
  destruct (existsb _ labels) eqn:He.
  - split; [|intros H; destruct (H eq_refl)].
    intros Hin. cbn [app] in Hin.
    destruct (strictEq "size/XXS" (Some s)), flag; simpl in Hin;
      intuition (try discriminate);
      match goal with H : Some _ = Some s |- _ =>
        injection H as <-; discriminate Hs end.
  - split; [intros _; discriminate|]. intros _. left. reflexivity.
Qed.

(** X15: the two markers as the code treats them.  On label objects and
    for a desired label that is [null] or starts with [size/]:
    [translation] is in [add] exactly when the desired label is not
    [size/XXS], [update] is in [add] exactly when the flag is set, both
    whether or not they are attached, and neither is ever in [remove]. *)
Theorem markers_follow_inputs_only
    (newLabel : option string) (labels : list label) (flag : bool) :
  isSizeLabel newLabel ->
  exists d,
    getLabelChanges newLabel (labelObjects labels) flag = Ok d /\
    (In (Some "translation") (add d) <-> newLabel <> Some "size/XXS") /\
    (In (Some "update") (add d) <-> flag = true) /\
    ~ In "translation" (remove d) /\ ~ In "update" (remove d).
Proof.
  intros Hs. rewrite getLabelChanges_labelObjects.
  eexists. split; [reflexivity|]. cbn [add remove].
  assert (Ht : newLabel <> Some "translation") by (intros ->; discriminate Hs).
  assert (Hu : newLabel <> Some "update") by (intros ->; discriminate Hs).
  split; [|split; [|split]].
  - unfold sizeAdd, translationAdd, updateAdd.
    destruct (strictEq "size/XXS" newLabel) eqn:Hx.
    + apply strictEq_true in Hx. subst newLabel.
      destruct (existsb _ labels), flag; simpl;
        split; intuition (try discriminate; try congruence).
    + apply strictEq_false in Hx.
      split; [intros _; exact Hx|]. intros _.
      apply in_or_app. right. left. reflexivity.
  - unfold sizeAdd, translationAdd, updateAdd.
    destruct (existsb _ labels), (strictEq "size/XXS" newLabel), flag; simpl;
      split; intuition (try discriminate; try congruence).
  - intros Hin. apply In_remove in Hin.
    destruct Hin as (_ & _ & _ & Hp & _). discriminate.
  - intros Hin. apply In_remove in Hin.
    destruct Hin as (_ & _ & _ & Hp & _). discriminate.
Qed.

Lemma markers_follow_inputs_only_witness :
  isSizeLabel (Some "size/M") /\
  exists d,
    getLabelChanges (Some "size/M")
      (labelObjects [Label "translation"; Label "update"]) false = Ok d /\
    (In (Some "translation") (add d) <-> Some "size/M" <> Some "size/XXS") /\
    (In (Some "update") (add d) <-> false = true) /\
    ~ In "translation" (remove d) /\ ~ In "update" (remove d).
Proof.
  split; [reflexivity|].
  apply (markers_follow_inputs_only (Some "size/M")). reflexivity.
Defined.

Lemma existsb_isDesired_sizes newLabel labels :
  existsb (isDesired newLabel) labels
  = existsb (isDesired newLabel)
      (List.filter (fun l => startsWith (name l) "size/") labels).
Proof.
  induction labels as [|l labels IH]; [reflexivity|].
  cbn [existsb List.filter].
  destruct (startsWith (name l) "size/") eqn:Hp.
  - cbn [existsb]. rewrite IH. reflexivity.
  - unfold isDesired at 1. rewrite Hp. exact IH.
Qed.

Lemma filter_isStale_sizes newLabel labels :
  List.filter (isStale newLabel) labels
  = List.filter (isStale newLabel)
      (List.filter (fun l => startsWith (name l) "size/") labels).
Proof.
  induction labels as [|l labels IH]; [reflexivity|].
  cbn [List.filter].
  destruct (startsWith (name l) "size/") eqn:Hp.
  - cbn [List.filter]. rewrite IH. reflexivity.
  - unfold isStale at 1. rewrite Hp. exact IH.
Qed.

(** X16: only the attached size labels matter: dropping every label whose
    name does not start with [size/] from the payload gives the same
    delta. *)
Theorem other_labels_are_irrelevant
    (newLabel : option string) (labels : list label) (flag : bool) :
  getLabelChanges newLabel (labelObjects labels) flag
  = getLabelChanges newLabel
      (labelObjects
         (List.filter (fun l => startsWith (name l) "size/") labels)) flag.
Proof.
  rewrite !getLabelChanges_labelObjects. unfold sizeAdd.
  rewrite <- existsb_isDesired_sizes, <- filter_isStale_sizes. reflexivity.
Qed.

(** ** The requests of a run *)

(** The names a list of requests asks to remove. *)
Definition removedNames (reqs : list request) : list string :=
  flat_map (fun req => match req with
                       | RemoveLabel n => [n]
                       | AddLabels _ => []
                       end) reqs.

Lemma removedNames_RemoveLabel ns : removedNames (map RemoveLabel ns) = ns.
Proof.
  unfold removedNames. induction ns as [|n ns IH]; simpl; [reflexivity|].
  rewrite IH. reflexivity.
Qed.

Lemma mainTail_labelObjects isIgnored' diffData sizes labels resolves :
  let sizeLabel := getSizeLabel (fst (countUkrainian isIgnored' diffData)) sizes in
  mainTail isIgnored' diffData sizes (labelObjects labels) resolves
  = applyChanges resolves
      {| add := sizeAdd sizeLabel labels ++ translationAdd sizeLabel
                ++ updateAdd (hasUpdatedOldMarkdownFiles diffData);
         remove := List.filter (staleName sizeLabel) (map name labels) |}.
Proof.
  cbv zeta. unfold mainTail, labelChanges.
  rewrite getLabelChanges_labelObjects, filter_isStale. reflexivity.
Qed.

(** X17: when no tier applies to the count, the first call of the run is
    [addLabels] with [null] as its first label, followed by
    [translation]; if the platform accepts it, every attached size label
    is then removed; if the platform rejects it, the run is rejected and
    no size label is removed. *)
Theorem run_without_tier_adds_null
    (isIgnored' : option string -> bool) (diffData : list file)
    (sizes : option (gmap N string)) (labels : list label) :
  getSizeLabel (fst (countUkrainian isIgnored' diffData)) sizes = None ->
  let added :=
    None :: Some "translation"
    :: (if hasUpdatedOldMarkdownFiles diffData then [Some "update"] else []) in
  mainTail isIgnored' diffData sizes (labelObjects labels) true
  = (AddLabels added
     :: map RemoveLabel
          (List.filter (fun s => startsWith s "size/") (map name labels)),
     Returned true) /\
  mainTail isIgnored' diffData sizes (labelObjects labels) false
  = ([AddLabels added], Rejected).
Proof.
  intros Hn. cbv zeta. rewrite !mainTail_labelObjects. cbv zeta. rewrite Hn.
  assert (Hs : sizeAdd None labels = [None]).
  { unfold sizeAdd. replace (existsb (isDesired None) labels) with false;
      [reflexivity|].
    symmetry. apply not_true_iff_false. rewrite existsb_exists.
    intros (l & _ & Hl). unfold isDesired in Hl.
    rewrite andb_false_r in Hl. discriminate. }
  assert (Hf : List.filter (staleName None) (map name labels)
               = List.filter (fun s => startsWith s "size/") (map name labels)).
  { apply List.filter_ext. intros s. unfold staleName. simpl.
    apply andb_true_r. }
  rewrite Hs, Hf. unfold translationAdd, updateAdd, applyChanges.
  cbn [add remove strictEq app length Nat.eqb Nat.ltb Nat.leb andb].
  split; reflexivity.
Qed.

Lemma run_without_tier_adds_null_witness :
  getSizeLabel
    (fst (countUkrainian (isIgnored globModel [])
            [File (Some "a/x.md") (Some "b/x.md") [Hunk [[43; 104; 105]%N]]]))
    None = None /\
  mainTail (isIgnored globModel [])
    [File (Some "a/x.md") (Some "b/x.md") [Hunk [[43; 104; 105]%N]]]
    None (labelObjects [Label "size/S"; Label "bug"]) false
  = ([AddLabels [None; Some "translation"; Some "update"]], Rejected).
Proof.
  split; [reflexivity|].
  apply (run_without_tier_adds_null (isIgnored globModel [])
           [File (Some "a/x.md") (Some "b/x.md") [Hunk [[43; 104; 105]%N]]]
           None [Label "size/S"; Label "bug"]).
  reflexivity.
Defined.

(** X18: a run on label objects makes no call and returns [false]
    exactly when the label for the count is [size/XXS], no old Markdown
    file was touched, [size/XXS] is attached and no other size label is;
    in every other case it makes a call. *)
Theorem run_is_a_no_op_iff
    (isIgnored' : option string -> bool) (diffData : list file)
    (sizes : option (gmap N string)) (labels : list label) (resolves : bool) :
  let run := mainTail isIgnored' diffData sizes (labelObjects labels) resolves in
  let condition :=
    getSizeLabel (fst (countUkrainian isIgnored' diffData)) sizes
    = Some "size/XXS" /\
    hasUpdatedOldMarkdownFiles diffData = false /\
    (exists l, In l labels /\ name l = "size/XXS") /\
    (forall l, In l labels -> startsWith (name l) "size/" = true ->
               name l = "size/XXS") in
  (run = ([], Returned false) <-> condition) /\
  (fst run = [] <-> condition) /\
  (snd run = Returned false <-> condition).
Proof.
  cbv zeta. rewrite mainTail_labelObjects. cbv zeta.
  set (sizeLabel := getSizeLabel _ sizes).
  set (flag := hasUpdatedOldMarkdownFiles diffData).
  set (a := sizeAdd sizeLabel labels ++ translationAdd sizeLabel ++ updateAdd flag).
  set (r := List.filter (staleName sizeLabel) (map name labels)).
  assert (Hempty : (a = [] /\ r = []) <->
                   sizeLabel = Some "size/XXS" /\ flag = false /\
                   (exists l, In l labels /\ name l = "size/XXS") /\
                   (forall l, In l labels -> startsWith (name l) "size/" = true ->
                              name l = "size/XXS")).
  { subst a r. unfold sizeAdd, translationAdd, updateAdd. split.
    - intros [Ha Hr].
      destruct (strictEq "size/XXS" sizeLabel) eqn:Hx;
        [|destruct (existsb _ labels); discriminate].
      apply strictEq_true in Hx.
      destruct (existsb (isDesired sizeLabel) labels) eqn:He; [|discriminate].
      destruct flag; [discriminate|].
      rewrite Hx in He. apply existsb_isDesired in He; [|reflexivity].
      repeat split; try assumption.
      intros l Hl Hp. destruct (String.eqb_spec (name l) "size/XXS") as [E|E];
        [exact E|].
      assert (Hin : In (name l)
                      (List.filter (staleName sizeLabel) (map name labels))).
      { apply filter_In. split; [apply in_map, Hl|].
        unfold staleName. rewrite Hp. simpl.
        apply negb_true_iff, strictEq_false. rewrite Hx. congruence. }
      rewrite Hr in Hin. destruct Hin.
    - intros (-> & -> & Hatt & Hall).
      apply (existsb_isDesired "size/XXS" labels eq_refl) in Hatt.
      rewrite Hatt. split; [reflexivity|].
      destruct (List.filter _ _) as [|s ss] eqn:Hf; [reflexivity|].
      assert (Hin : In s (List.filter (staleName (Some "size/XXS"))
                            (map name labels)))
        by (rewrite Hf; left; reflexivity).
      apply filter_In in Hin. destruct Hin as [Hin Hs].
      apply in_map_iff in Hin. destruct Hin as (l & <- & Hl).
      unfold staleName in Hs. apply andb_true_iff in Hs. destruct Hs as [Hp Hn].
      apply negb_true_iff, strictEq_false in Hn.
      rewrite (Hall l Hl Hp) in Hn. congruence. }
  rewrite <- Hempty. unfold applyChanges. cbn [add remove].
  destruct a as [|x a]; destruct r as [|y r]; destruct resolves; simpl;
    repeat split; intros; try discriminate; try reflexivity;
    intuition discriminate.
Qed.

(** X19: a run on label objects leaves every other label alone: a name
    it asks to remove is an attached name that starts with [size/] and
    is not the label for the count, and a label it asks to add is the
    label for the count, [translation] or [update]. *)
Theorem run_touches_only_its_labels
    (isIgnored' : option string -> bool) (diffData : list file)
    (sizes : option (gmap N string)) (labels : list label) (resolves : bool) :
  let sizeLabel := getSizeLabel (fst (countUkrainian isIgnored' diffData)) sizes in
  let run := mainTail isIgnored' diffData sizes (labelObjects labels) resolves in
  (forall n, In (RemoveLabel n) (fst run) ->
     (exists l, In l labels /\ name l = n) /\
     startsWith n "size/" = true /\ sizeLabel <> Some n) /\
  (forall ls x, In (AddLabels ls) (fst run) -> In x ls ->
     x = sizeLabel \/ x = Some "translation" \/ x = Some "update").
Proof.
  cbv zeta. rewrite mainTail_labelObjects. cbv zeta.
  set (sizeLabel := getSizeLabel _ sizes).
  set (flag := hasUpdatedOldMarkdownFiles diffData).
  assert (Hrem : forall n,
             In (RemoveLabel n)
               (map RemoveLabel
                  (List.filter (staleName sizeLabel) (map name labels))) ->
             (exists l, In l labels /\ name l = n) /\
             startsWith n "size/" = true /\ sizeLabel <> Some n).
  { intros n Hn. apply in_map_iff in Hn. destruct Hn as (n' & [= ->] & Hn).
    apply filter_In in Hn. destruct Hn as [Hn Hs].
    apply in_map_iff in Hn. destruct Hn as (l & <- & Hl).
    unfold staleName in Hs. apply andb_true_iff in Hs. destruct Hs as [Hp Hne].
    apply negb_true_iff, strictEq_false in Hne. eauto. }
  unfold applyChanges. cbn [add remove].
  destruct ((length _ =? 0)%nat && _); [split; intros; simpl in *; tauto|].
  destruct (0 <? length _)%nat; [destruct resolves|]; cbn [fst]; split.
  - intros n [Hn|Hn]; [discriminate | auto].
  - intros ls x [[= <-]|Hls] Hx; [eapply In_add, Hx|].
    apply in_map_iff in Hls. destruct Hls as (? & ? & _). discriminate.
  - intros n [Hn|[]]. discriminate.
  - intros ls x [[= <-]|[]] Hx. eapply In_add, Hx.
  - exact Hrem.
  - intros ls x Hls. apply in_map_iff in Hls.
    destruct Hls as (? & ? & _). discriminate.
Qed.

(** X20: removals are all or nothing.  A run that is rejected has asked
    for no removal, whatever the array of labels holds; a run on label
    objects that returns [true] has asked to remove each stale size
    label, in the order of the payload. *)
Theorem run_removes_all_or_nothing
    (isIgnored' : option string -> bool) (diffData : list file)
    (sizes : option (gmap N string)) :
  (forall es resolves,
     snd (mainTail isIgnored' diffData sizes es resolves) = Rejected ->
     removedNames (fst (mainTail isIgnored' diffData sizes es resolves)) = []) /\
  (forall labels resolves,
     snd (mainTail isIgnored' diffData sizes (labelObjects labels) resolves)
     = Returned true ->
     removedNames
       (fst (mainTail isIgnored' diffData sizes (labelObjects labels) resolves))
     = List.filter
         (staleName
            (getSizeLabel (fst (countUkrainian isIgnored' diffData)) sizes))
         (map name labels)).
Proof.
  split.
  - intros es resolves. unfold mainTail.
    destruct (labelChanges _ _ _ _) as [d|]; [|reflexivity].
    unfold applyChanges.
    destruct ((length _ =? 0)%nat && _); [discriminate|].
    destruct (0 <? length _)%nat; [destruct resolves|]; simpl;
      try discriminate. reflexivity.
  - intros labels resolves. rewrite mainTail_labelObjects. cbv zeta.
    unfold applyChanges. cbn [add remove].
    destruct ((length _ =? 0)%nat && _); [discriminate|].
    destruct (0 <? length _)%nat; [destruct resolves|]; cbn [fst snd];
      try discriminate; intros _.
    + cbn [removedNames flat_map app].
      apply removedNames_RemoveLabel.
    + apply removedNames_RemoveLabel.
Qed.

Lemma run_removes_all_or_nothing_witness :
  snd (mainTail (isIgnored globModel []) [] None
         (labelObjects [Label "size/S"; Label "size/XL"]) false) = Rejected /\
  removedNames
    (fst (mainTail (isIgnored globModel []) [] None
            (labelObjects [Label "size/S"; Label "size/XL"]) false)) = [].
Proof.
  split; [reflexivity|].
  apply (proj1 (run_removes_all_or_nothing (isIgnored globModel []) [] None)).
  reflexivity.
Defined.
